(** * Weather plugin (src/python/weather/app.py): outbound HTTP pipeline

    A shallow embedding of [make_http_request], [get_weather],
    [WeatherResponse.to_dict] and [WitWorld.check_weather].

    Conventions of the embedding.
    - Python [str] and [bytes] values are Rocq [string]s: sequences of
      8-bit characters (code points U+0000..U+00FF for [str]).
    - A Python exception is a pair of its class and of [str(e)].
    - Host (WASI) calls are logged in a trace of [event]s, so that
      "which host call happened" is observable.  A computation is a pair
      of an outcome (value or raised exception) and of the trace.
    - The host is a record of the answers it gives to each call. *)

From Stdlib Require Import ZArith List String Ascii Bool Lia DecimalString.
Import ListNotations.
Local Open Scope string_scope.
Local Open Scope Z_scope.
Set Warnings "-register-all".

(** ** Strings *)

Definition dquote : string := String "034"%char EmptyString.
Definition squote : string := String "039"%char EmptyString.
Definition backslash : string := String "092"%char EmptyString.

(** [str(n)] for a Python [int]. *)
Definition str_of_int (z : Z) : string :=
  NilZero.string_of_int (Z.to_int z).

(** [prefix p s]: [s.startswith(p)]. *)
Fixpoint starts_with (p s : string) : bool :=
  match p, s with
  | EmptyString, _ => true
  | String a p', String b s' => Ascii.eqb a b && starts_with p' s'
  | String _ _, EmptyString => false
  end.

(** [needle in haystack] for two [str]. *)
Fixpoint str_contains (needle hay : string) : bool :=
  starts_with needle hay ||
  match hay with
  | EmptyString => false
  | String _ hay' => str_contains needle hay'
  end.

(** [str.replace(pat, EmptyString)] for a non-empty [pat]: every
    non-overlapping occurrence, scanning from the left, is removed.
    [skip] counts the characters of a match still to drop. *)
Fixpoint remove_all_from (pat : string) (skip : nat) (s : string) : string :=
  match s with
  | EmptyString => EmptyString
  | String c s' =>
      match skip with
      | S k => remove_all_from pat k s'
      | O =>
          if starts_with pat s
          then remove_all_from pat (Nat.pred (String.length pat)) s'
          else String c (remove_all_from pat O s')
      end
  end.

Definition str_remove_all (pat s : string) : string :=
  remove_all_from pat O s.

(** [str.lower()]: on the 8-bit code points, the upper-case letters are
    A-Z, U+00C0-U+00D6 and U+00D8-U+00DE; each maps to the code point 32
    higher. *)
Definition lower_char (c : ascii) : ascii :=
  let n := nat_of_ascii c in
  if ((65 <=? n) && (n <=? 90) ||
      (192 <=? n) && (n <=? 214) ||
      (216 <=? n) && (n <=? 222))%nat
  then ascii_of_nat (n + 32) else c.

Fixpoint str_lower (s : string) : string :=
  match s with
  | EmptyString => EmptyString
  | String c s' => String (lower_char c) (str_lower s')
  end.

(** [b"".join(chunks)] and [sep.join(parts)]. *)
Fixpoint bytes_join (chunks : list string) : string :=
  match chunks with
  | [] => EmptyString
  | c :: cs => c ++ bytes_join cs
  end.

Fixpoint str_join (sep : string) (parts : list string) : string :=
  match parts with
  | [] => EmptyString
  | [p] => p
  | p :: ps => p ++ sep ++ str_join sep ps
  end.

Definition hex_digit (upper : bool) (n : nat) : ascii :=
  if (n <? 10)%nat then ascii_of_nat (48 + n)
  else ascii_of_nat ((if upper then 55 else 87) + n).

Definition hex2 (upper : bool) (n : nat) : string :=
  String (hex_digit upper (n / 16)) (String (hex_digit upper (n mod 16)) EmptyString).

(** [urllib.parse.quote(s)] with the default [safe='/']: the text is
    encoded as UTF-8 and every byte outside [A-Za-z0-9_.-~/] becomes
    [%XX] (upper-case hexadecimal). *)
Definition quote_unreserved (n : nat) : bool :=
  ((65 <=? n) && (n <=? 90) || (97 <=? n) && (n <=? 122) ||
   (48 <=? n) && (n <=? 57) ||
   (n =? 95) || (n =? 46) || (n =? 45) || (n =? 126) || (n =? 47))%nat.

Definition quote_char (c : ascii) : string :=
  let n := nat_of_ascii c in
  if quote_unreserved n then String c EmptyString
  else if (n <? 128)%nat then "%" ++ hex2 true n
  else "%" ++ hex2 true (192 + n / 64) ++ "%" ++ hex2 true (128 + n mod 64).

Fixpoint quote (s : string) : string :=
  match s with
  | EmptyString => EmptyString
  | String c s' => quote_char c ++ quote s'
  end.

(** ** Exceptions and computations *)

Inductive exn_class :=
| KeyError | TypeError | AttributeError | ValueError
| HostErr      (* [wit_world.types.Err], raised by a host call *)
| Exception.   (* a plain [Exception(...)] *)

(** An exception value: its class and [str(e)]. *)
Record exn := Exn { exn_cls : exn_class; exn_str : string }.

Definition is_KeyError (e : exn) : bool :=
  match exn_cls e with KeyError => true | _ => false end.

Inductive outcome (A : Type) :=
| Ret (a : A)
| Raise (e : exn).
Arguments Ret {A} a.
Arguments Raise {A} e.

(** ** JSON values, as [json.loads] builds them and [json.dumps] prints them *)

(** A Python [float]: a finite binary value [m * 2^e] or one of the three
    non-finite values that [json.loads] accepts as [NaN], [Infinity] and
    [-Infinity].  No arithmetic is performed on floats by the program. *)
Inductive pyfloat :=
| Finite (m e : Z)
| PosInf
| NegInf
| NaN.

(** A Python [dict] with [str] keys is an association list in insertion
    order; [JNull] is [None]. *)
Inductive json :=
| JNull
| JBool (b : bool)
| JInt (z : Z)
| JFloat (f : pyfloat)
| JStr (s : string)
| JList (l : list json)
| JDict (d : list (string * json)).

Definition pydict := list (string * json).

(** [d.get(k)] at the level of the association list. *)
Fixpoint dict_lookup (k : string) (d : pydict) : option json :=
  match d with
  | [] => None
  | (k', v) :: d' => if String.eqb k' k then Some v else dict_lookup k d'
  end.

Definition dict_has (k : string) (d : pydict) : bool :=
  match dict_lookup k d with Some _ => true | None => false end.

(** [d[k] = v]: update in place when the key exists, append otherwise. *)
Fixpoint dict_set (k : string) (v : json) (d : pydict) : pydict :=
  match d with
  | [] => [(k, v)]
  | (k', v') :: d' =>
      if String.eqb k' k then (k', v) :: d' else (k', v') :: dict_set k v d'
  end.

Definition is_None (v : json) : bool :=
  match v with JNull => true | _ => false end.

(** The name of the Python type of a value, as error messages print it. *)
Definition type_name (v : json) : string :=
  match v with
  | JNull => "NoneType"
  | JBool _ => "bool"
  | JInt _ => "int"
  | JFloat _ => "float"
  | JStr _ => "str"
  | JList _ => "list"
  | JDict _ => "dict"
  end.

(** *** [json.dumps] with its default arguments
    ([ensure_ascii=True], separators [", "] and [": "], [allow_nan=True]). *)

Definition escape_char (c : ascii) : string :=
  let n := nat_of_ascii c in
  if (n =? 34)%nat then backslash ++ dquote
  else if (n =? 92)%nat then backslash ++ backslash
  else if (n =? 10)%nat then backslash ++ "n"
  else if (n =? 13)%nat then backslash ++ "r"
  else if (n =? 9)%nat then backslash ++ "t"
  else if (n =? 8)%nat then backslash ++ "b"
  else if (n =? 12)%nat then backslash ++ "f"
  else if ((32 <=? n) && (n <=? 126))%nat then String c EmptyString
  else backslash ++ "u00" ++ hex2 false n.

Fixpoint escape_body (s : string) : string :=
  match s with
  | EmptyString => EmptyString
  | String c s' => escape_char c ++ escape_body s'
  end.

Definition dumps_str (s : string) : string :=
  dquote ++ escape_body s ++ dquote.

Section Dumps.
(** [float.__repr__] on a finite float [m * 2^e]; the shortest
    round-trip printing is part of the interpreter. *)
Variable float_repr : Z -> Z -> string.

Definition dumps_float (f : pyfloat) : string :=
  match f with
  | Finite m e => float_repr m e
  | PosInf => "Infinity"
  | NegInf => "-Infinity"
  | NaN => "NaN"
  end.

Fixpoint json_dumps (v : json) : string :=
  match v with
  | JNull => "null"
  | JBool true => "true"
  | JBool false => "false"
  | JInt z => str_of_int z
  | JFloat f => dumps_float f
  | JStr s => dumps_str s
  | JList l => "[" ++ str_join ", " (map json_dumps l) ++ "]"
  | JDict d =>
      "{" ++ str_join ", "
               (map (fun kv => dumps_str (fst kv) ++ ": " ++ json_dumps (snd kv)) d)
          ++ "}"
  end.
End Dumps.

(** ** The host: WASI HTTP, environment and streams *)

(** The answer of a host call whose WIT type is a [result]: the Python
    binding returns the payload or raises [Err(detail)]. *)
Inductive host_result (A : Type) :=
| HostOk (a : A)
| HostRaise (detail : string).
Arguments HostOk {A} a.
Arguments HostRaise {A} detail.

(** One [blocking_read] on an input stream. *)
Inductive read_outcome :=
| ReadChunk (data : string)
| ReadError (detail : string).

(** An input stream is the finite script of its reads; a read past the end
    of the script finds the stream closed. *)
Definition InputStream := list read_outcome.
Definition stream_closed : string := "StreamError_Closed()".

Record IncomingBody := { body_stream : host_result InputStream }.

Record IncomingResponse := {
  resp_status : Z;
  resp_consume : host_result IncomingBody
}.

(** What [FutureIncomingResponse.get()] returns:
    [None], [Err(detail)], [Ok(inner)], or an object that is neither
    (which the code then uses as the response itself); [inner] is
    [Err(code)], [Ok(response)] or again a bare object. *)
Inductive inner_result :=
| InnerErr (code : string)
| InnerOk (r : IncomingResponse)
| InnerBare (r : IncomingResponse).

Inductive future_result :=
| FutNone
| FutErr (detail : string)
| FutOk (inner : inner_result)
| FutBare (r : IncomingResponse).

Record FutureIncomingResponse := { future_get : future_result }.

Inductive Method := Method_Get.
Inductive Scheme := Scheme_Https.

Record OutgoingRequest := {
  req_headers : list (string * string);
  req_method : option Method;
  req_scheme : option Scheme;
  req_authority : option string;
  req_path_with_query : option string
}.

Record Host := {
  host_environment : list (string * string);
  host_fields_append : string -> string -> host_result unit;
  host_set_method : Method -> host_result unit;
  host_set_scheme : Scheme -> host_result unit;
  host_set_authority : string -> host_result unit;
  host_set_path_with_query : string -> host_result unit;
  host_handle : OutgoingRequest -> host_result FutureIncomingResponse
}.

Inductive event :=
| EvGetEnvironment
| EvFieldsNew
| EvFieldsAppend (k v : string)
| EvRequestNew
| EvSetMethod (m : Method)
| EvSetScheme (s : Scheme)
| EvSetAuthority (a : string)
| EvSetPathWithQuery (p : string)
| EvHandle (r : OutgoingRequest)
| EvSubscribe
| EvPoll
| EvFutureGet
| EvStatus
| EvConsume
| EvStream
| EvBlockingRead (len : Z).

(** Every host call but the reading of the environment belongs to the
    HTTP transport. *)
Definition is_network_event (ev : event) : bool :=
  match ev with EvGetEnvironment => false | _ => true end.

(** ** Computations: outcome and trace of host calls *)

Definition M (A : Type) : Type := (outcome A * list event)%type.

Definition ret {A} (a : A) : M A := (Ret a, []).
Definition raise {A} (e : exn) : M A := (Raise e, []).

Definition bind {A B} (m : M A) (k : A -> M B) : M B :=
  match fst m with
  | Ret a => let r := k a in (fst r, (snd m ++ snd r)%list)
  | Raise e => (Raise e, snd m)
  end.

(** [try: m  except Exception as e: handler e]. *)
Definition try_except {A} (m : M A) (handler : exn -> M A) : M A :=
  match fst m with
  | Ret a => m
  | Raise e => let r := handler e in (fst r, (snd m ++ snd r)%list)
  end.

(** A host call that cannot fail, and one that may raise [Err]. *)
Definition call {A} (ev : event) (a : A) : M A := (Ret a, [ev]).

Definition call_result {A} (ev : event) (r : host_result A) : M A :=
  match r with
  | HostOk a => (Ret a, [ev])
  | HostRaise d => (Raise (Exn HostErr d), [ev])
  end.

Declare Scope py_scope.
Delimit Scope py_scope with py.
Notation "x <- m ;; k" := (bind m (fun x => k))
  (at level 100, m at next level, right associativity) : py_scope.
Notation "m ;;; k" := (bind m (fun _ => k))
  (at level 100, right associativity) : py_scope.
Local Open Scope py_scope.

(** ** [make_http_request] *)

Definition OPENWEATHER_ENDPOINT : string := "api.openweathermap.org".
Definition TIMEOUT_SECS : Z := 10.

(** [str.encode()]: UTF-8; a code point above U+007F takes two bytes. *)
Definition utf8_char (c : ascii) : string :=
  let n := nat_of_ascii c in
  if (n <? 128)%nat then String c EmptyString
  else String (ascii_of_nat (192 + n / 64))
         (String (ascii_of_nat (128 + n mod 64)) EmptyString).

Fixpoint str_encode (s : string) : string :=
  match s with
  | EmptyString => EmptyString
  | String c s' => utf8_char c ++ str_encode s'
  end.

(** Lines 63-65: [headers = Fields()] and one [append] per item. *)
Fixpoint append_headers (h : Host) (items : list (string * string))
    (acc : list (string * string)) : M (list (string * string)) :=
  match items with
  | [] => ret acc
  | (key, value) :: rest =>
      let v := str_encode value in
      call_result (EvFieldsAppend key v) (host_fields_append h key v) ;;;
      append_headers h rest (acc ++ [(key, v)])%list
  end.

(** Lines 63-75, the request builder. *)
Definition request_builder (h : Host) (url : string)
    (headers_dict : list (string * string)) : M OutgoingRequest :=
  call EvFieldsNew tt ;;;
  headers <- append_headers h headers_dict [] ;;
  request <- call EvRequestNew
               {| req_headers := headers; req_method := None;
                  req_scheme := None; req_authority := None;
                  req_path_with_query := None |} ;;
  call_result (EvSetMethod Method_Get) (host_set_method h Method_Get) ;;;
  call_result (EvSetScheme Scheme_Https) (host_set_scheme h Scheme_Https) ;;;
  call_result (EvSetAuthority OPENWEATHER_ENDPOINT)
              (host_set_authority h OPENWEATHER_ENDPOINT) ;;;
  let path_with_query :=
    str_remove_all ("https://" ++ OPENWEATHER_ENDPOINT) url in
  call_result (EvSetPathWithQuery path_with_query)
              (host_set_path_with_query h path_with_query) ;;;
  ret {| req_headers := headers; req_method := Some Method_Get;
         req_scheme := Some Scheme_Https;
         req_authority := Some OPENWEATHER_ENDPOINT;
         req_path_with_query := Some path_with_query |}.

(** Lines 78-87, the transport driver: submit, subscribe, block, get. *)
Definition transport_driver (h : Host) (request : OutgoingRequest)
    : M future_result :=
  response <- call_result (EvHandle request) (host_handle h request) ;;
  call EvSubscribe tt ;;;
  call EvPoll tt ;;;
  call EvFutureGet (future_get response).

(** Lines 90-110, the result unwrapper. *)
Definition result_unwrapper (result : future_result) : M IncomingResponse :=
  match result with
  | FutNone => raise (Exn Exception "No response received")
  | FutErr detail =>
      raise (Exn Exception ("Failed to get response: " ++ detail))
  | FutOk (InnerErr code) =>
      raise (Exn Exception ("Request failed with error code: " ++ code))
  | FutOk (InnerOk incoming_response)
  | FutOk (InnerBare incoming_response)
  | FutBare incoming_response =>
      status <- call EvStatus (resp_status incoming_response) ;;
      if negb ((200 <=? status) && (status <? 300))
      then raise (Exn Exception
                    ("HTTP error: status code " ++ str_of_int status))
      else ret incoming_response
  end.

(** Lines 117-124, the loop inside the [try]: it ends by [break] (no
    exception) or by the exception of a read; either way the list
    [chunks] keeps what was appended, and the handler sees it. *)
Fixpoint read_loop (body_stream : InputStream) (chunks : list string)
    : (list string * option exn) * list event :=
  match body_stream with
  | [] => ((chunks, Some (Exn HostErr stream_closed)), [EvBlockingRead 8192])
  | ReadError detail :: _ =>
      ((chunks, Some (Exn HostErr detail)), [EvBlockingRead 8192])
  | ReadChunk body_chunk :: rest =>
      if (String.length body_chunk =? 0)%nat
      then ((chunks, None), [EvBlockingRead 8192])
      else
        let r := read_loop rest (chunks ++ [body_chunk])%list in
        (fst r, EvBlockingRead 8192 :: snd r)
  end.

(** Lines 117-132: the loop, the handler and the final join. *)
Definition read_body (body_stream : InputStream) : M string :=
  let r := read_loop body_stream [] in
  let chunks := fst (fst r) in
  match snd (fst r) with
  | None => (Ret (bytes_join chunks), snd r)
  | Some e =>
      match chunks with
      | _ :: _ => (Ret (bytes_join chunks), snd r)
      | [] =>
          (Raise (Exn Exception
                    ("Failed to read response body: " ++ exn_str e)), snd r)
      end
  end.

(** Lines 113-132, the body stream reader. *)
Definition body_stream_reader (incoming_response : IncomingResponse)
    : M string :=
  incoming_body <- call_result EvConsume (resp_consume incoming_response) ;;
  body_stream <- call_result EvStream (body_stream incoming_body) ;;
  read_body body_stream.

Definition make_http_request (h : Host) (url : string)
    (headers_dict : list (string * string)) : M string :=
  request <- request_builder h url headers_dict ;;
  result <- transport_driver h request ;;
  incoming_response <- result_unwrapper result ;;
  body_stream_reader incoming_response.

(** ** Python operations on parsed JSON values *)

Definition json_is_str (needle : string) (v : json) : bool :=
  match v with JStr s => String.eqb s needle | _ => false end.

Fixpoint str_chars (s : string) : list json :=
  match s with
  | EmptyString => []
  | String c s' => JStr (String c EmptyString) :: str_chars s'
  end.

(** [needle in x]. *)
Definition py_contains (needle : string) (x : json) : outcome bool :=
  match x with
  | JDict d => Ret (dict_has needle d)
  | JList l => Ret (existsb (json_is_str needle) l)
  | JStr s => Ret (str_contains needle s)
  | _ => Raise (Exn TypeError
                  ("argument of type " ++ squote ++ type_name x ++ squote
                   ++ " is not iterable"))
  end.

(** [x[key]] for a [str] key; [str(KeyError(key))] is [repr(key)]. *)
Definition py_getitem (x : json) (key : string) : outcome json :=
  match x with
  | JDict d =>
      match dict_lookup key d with
      | Some v => Ret v
      | None => Raise (Exn KeyError (squote ++ key ++ squote))
      end
  | JList _ =>
      Raise (Exn TypeError "list indices must be integers or slices, not str")
  | JStr _ =>
      Raise (Exn TypeError
               ("string indices must be integers, not " ++ squote ++ "str" ++ squote))
  | _ => Raise (Exn TypeError
                  (squote ++ type_name x ++ squote ++ " object is not subscriptable"))
  end.

(** [x.get(key, default)]. *)
Definition py_get (x : json) (key : string) (default : json) : outcome json :=
  match x with
  | JDict d =>
      match dict_lookup key d with
      | Some v => Ret v
      | None => Ret default
      end
  | _ => Raise (Exn AttributeError
                  (squote ++ type_name x ++ squote
                   ++ " object has no attribute " ++ squote ++ "get" ++ squote))
  end.

(** The items that [for w in x] visits. *)
Definition py_iter (x : json) : outcome (list json) :=
  match x with
  | JDict d => Ret (map (fun kv => JStr (fst kv)) d)
  | JList l => Ret l
  | JStr s => Ret (str_chars s)
  | _ => Raise (Exn TypeError
                  (squote ++ type_name x ++ squote ++ " object is not iterable"))
  end.

Definition obind {A B} (o : outcome A) (k : A -> outcome B) : outcome B :=
  match o with
  | Ret a => k a
  | Raise e => Raise e
  end.

Notation "x <~ o ;; k" := (obind o (fun x => k))
  (at level 100, o at next level, right associativity) : py_scope.

Definition lift {A} (o : outcome A) : M A := (o, []).

(** ** The weather domain *)

Inductive Unit := METRIC | IMPERIAL.

Definition Unit_value (u : Unit) : string :=
  match u with
  | METRIC => "metric"
  | IMPERIAL => "imperial"
  end.

Record WeatherParams := {
  wp_location : string;
  wp_unit : Unit
}.

(** The [unit] attribute holds a [Unit] member or a plain [str]. *)
Inductive unit_field :=
| UnitMember (u : Unit)
| UnitStr (s : string).

(** The annotations of the dataclass are not enforced: each attribute
    holds whatever the payload had ([JNull] is [None]). *)
Record WeatherResponse := {
  wr_location : json;
  wr_temperature : json;
  wr_feels_like_temperature : json;
  wr_wind_speed : json;
  wr_wind_degrees : json;
  wr_humidity : json;
  wr_unit : unit_field;
  wr_weather_conditions : list json
}.

(** [WeatherResponse.to_dict], lines 41-55. *)
Definition to_dict (self : WeatherResponse) : pydict :=
  let result :=
    [ ("location", wr_location self);
      ("temperature", wr_temperature self);
      ("feels_like_temperature", wr_feels_like_temperature self);
      ("unit", match wr_unit self with
               | UnitMember u => JStr (str_lower (Unit_value u))
               | UnitStr s => JStr s
               end);
      ("weather_conditions", JList (wr_weather_conditions self)) ] in
  let result :=
    if negb (is_None (wr_wind_speed self))
    then dict_set "wind_speed" (wr_wind_speed self) result else result in
  let result :=
    if negb (is_None (wr_wind_degrees self))
    then dict_set "wind_degrees" (wr_wind_degrees self) result else result in
  let result :=
    if negb (is_None (wr_humidity self))
    then dict_set "humidity" (wr_humidity self) result else result in
  result.

(** Lines 152-156, the comprehension over the entries of ["weather"]. *)
Fixpoint collect_descriptions (entries : list json) : outcome (list json) :=
  match entries with
  | [] => Ret []
  | w :: rest =>
      has <~ py_contains "description" w ;;
      if (has : bool)
      then d <~ py_get w "description" (JStr EmptyString) ;;
           ds <~ collect_descriptions rest ;;
           Ret (d :: ds)
      else collect_descriptions rest
  end.

(** Lines 150-168: from the parsed payload to the response object. *)
Definition map_weather_data (weather_data : json) (params : WeatherParams)
    : outcome WeatherResponse :=
  has_weather <~ py_contains "weather" weather_data ;;
  weather_conditions <~
    (if (has_weather : bool)
     then entries <~ py_getitem weather_data "weather" ;;
          items <~ py_iter entries ;;
          collect_descriptions items
     else Ret []) ;;
  location <~ py_get weather_data "name" (JStr EmptyString) ;;
  main <~ py_getitem weather_data "main" ;;
  temperature <~ py_getitem main "temp" ;;
  main' <~ py_getitem weather_data "main" ;;
  feels_like_temperature <~ py_getitem main' "feels_like" ;;
  wind <~ py_get weather_data "wind" (JDict []) ;;
  wind_speed <~ py_get wind "speed" JNull ;;
  wind' <~ py_get weather_data "wind" (JDict []) ;;
  wind_degrees <~ py_get wind' "deg" JNull ;;
  main'' <~ py_get weather_data "main" (JDict []) ;;
  humidity <~ py_get main'' "humidity" JNull ;;
  Ret {| wr_location := location;
         wr_temperature := temperature;
         wr_feels_like_temperature := feels_like_temperature;
         wr_wind_speed := wind_speed;
         wr_wind_degrees := wind_degrees;
         wr_humidity := humidity;
         wr_unit := UnitStr (Unit_value (wp_unit params));
         wr_weather_conditions := weather_conditions |}.

(** What [json.loads(body.decode('utf-8'))] does with a body: a value, or
    a [UnicodeDecodeError] or [JSONDecodeError] (both are [ValueError]s)
    with its message. *)
Inductive parse_result :=
| Parsed (v : json)
| ParseError (msg : string).

(** Lines 136-141, the URL of the request. *)
Definition request_url (api_key : string) (params : WeatherParams) : string :=
  let unit_query := Unit_value (wp_unit params) in
  let encoded_location := quote (wp_location params) in
  "https://" ++ OPENWEATHER_ENDPOINT ++ "/data/2.5/weather?q="
  ++ encoded_location ++ "&appid=" ++ api_key ++ "&units=" ++ unit_query.

Definition API_KEY_NAME : string := "OPENWEATHER_API_KEY".

(** Lines 182-187: the first variable named [OPENWEATHER_API_KEY]. *)
Fixpoint find_api_key (env_vars : list (string * string)) : option string :=
  match env_vars with
  | [] => None
  | var :: rest =>
      if String.eqb (fst var) API_KEY_NAME then Some (snd var)
      else find_api_key rest
  end.


Section Program.
Variable float_repr : Z -> Z -> string.
(** [json.loads(body.decode('utf-8'))], part of the interpreter. *)
Variable json_loads : string -> parse_result.

Definition load_body (body : string) : outcome json :=
  match json_loads body with
  | Parsed v => Ret v
  | ParseError msg => Raise (Exn ValueError msg)
  end.

(** [get_weather], lines 135-175. *)
Definition get_weather (h : Host) (api_key : string) (params : WeatherParams)
    : M WeatherResponse :=
  let request_url := request_url api_key params in
  try_except
    (let headers := [("User-Agent", "Mozilla/5.0 (compatible; noorle/1.0)")] in
     body <- make_http_request h request_url headers ;;
     weather_data <- lift (load_body body) ;;
     lift (map_weather_data weather_data params))
    (fun e =>
       if is_KeyError e
       then raise (Exn Exception
                     ("Error parsing weather data: missing field " ++ exn_str e))
       else raise (Exn Exception ("Failed to fetch weather: " ++ exn_str e))).

Definition error_json (msg : string) : string :=
  json_dumps float_repr (JDict [("error", JStr msg)]).

(** [WitWorld.check_weather], lines 179-213.  [not api_key] holds for
    [None] and for the empty string. *)
Definition check_weather (h : Host) (location unit : string) : M string :=
  env_vars <- call EvGetEnvironment (host_environment h) ;;
  match find_api_key env_vars with
  | None => ret (error_json "OPENWEATHER_API_KEY environment variable not set")
  | Some api_key =>
      if (String.length api_key =? 0)%nat
      then ret (error_json "OPENWEATHER_API_KEY environment variable not set")
      else
        let unit_lower := str_lower unit in
        let unit_enum :=
          if String.eqb unit_lower "imperial" then IMPERIAL
          else METRIC in
        let params := {| wp_location := location; wp_unit := unit_enum |} in
        try_except
          (weather <- get_weather h api_key params ;;
           ret (json_dumps float_repr (JDict (to_dict weather))))
          (fun e => ret (error_json ("Failed to fetch weather: " ++ exn_str e)))
  end.
End Program.

(** ** Concrete hosts, payloads and interpreter functions for the examples *)

Fixpoint digits_fixed (k : nat) (n : Z) : string :=
  match k with
  | O => EmptyString
  | S k' =>
      digits_fixed k' (n / 10)
      ++ String (ascii_of_nat (48 + Z.to_nat (n mod 10))) EmptyString
  end.

Fixpoint trim_zeros (k : nat) (n : Z) : nat * Z :=
  match k with
  | O => (k, n)
  | S k1 =>
      match k1 with
      | O => (k, n)
      | S _ => if n mod 10 =? 0 then trim_zeros k1 (n / 10) else (k, n)
      end
  end.

(** [float.__repr__] on the values [m * 2^e] whose exact decimal expansion
    is their shortest round-trip form, of magnitude in [1e-4, 1e16): the
    expansion itself, with at least one fractional digit.  It covers
    21.0 = 21 * 2^0 and 20.5 = 41 * 2^-1. *)
Definition exact_float_repr (m e : Z) : string :=
  if 0 <=? e then str_of_int (m * 2 ^ e) ++ ".0"
  else
    let k := Z.to_nat (- e) in
    let num := Z.abs m * 5 ^ (- e) in
    let kf := trim_zeros k (num mod 10 ^ (- e)) in
    (if m <? 0 then "-" else EmptyString)
    ++ str_of_int (num / 10 ^ (- e)) ++ "." ++ digits_fixed (fst kf) (snd kf).

Definition float_21_0 : json := JFloat (Finite 21 0).
Definition float_20_5 : json := JFloat (Finite 41 (-1)).

(** The payload [{"main": {"temp": 21.0, "feels_like": 20.5}}]. *)
Definition payload_main_only : json :=
  JDict [("main", JDict [("temp", float_21_0); ("feels_like", float_20_5)])].

(** The payload [{"main": null}]. *)
Definition payload_main_null : json := JDict [("main", JNull)].

(** The payload [{"main": {"feels_like": 20.5}}]. *)
Definition payload_no_temp : json :=
  JDict [("main", JDict [("feels_like", float_20_5)])].

Definition loads_const (v : json) : string -> parse_result :=
  fun _ => Parsed v.

(** A response with the given status whose body is delivered by the given
    script of reads. *)
Definition response_with (status : Z) (reads : InputStream) : IncomingResponse :=
  {| resp_status := status;
     resp_consume := HostOk {| body_stream := HostOk reads |} |}.

(** A host that accepts every request-building call and resolves the
    request to [result]. *)
Definition host_with (env : list (string * string)) (result : future_result)
    : Host :=
  {| host_environment := env;
     host_fields_append := fun _ _ => HostOk tt;
     host_set_method := fun _ => HostOk tt;
     host_set_scheme := fun _ => HostOk tt;
     host_set_authority := fun _ => HostOk tt;
     host_set_path_with_query := fun _ => HostOk tt;
     host_handle := fun _ => HostOk {| future_get := result |} |}.

Definition env_with_key : list (string * string) :=
  [("HOME", "/"); ("OPENWEATHER_API_KEY", "k3y")].

Definition env_without_key : list (string * string) := [("HOME", "/")].

Definition env_empty_key : list (string * string) :=
  [("HOME", "/"); ("OPENWEATHER_API_KEY", EmptyString)].

Definition reads_ab_cd : InputStream :=
  [ReadChunk "ab"; ReadChunk "cd"; ReadChunk EmptyString].

Definition host_ok : Host :=
  host_with env_with_key (FutOk (InnerOk (response_with 200 reads_ab_cd))).

(** Which response, if any, a resolved future hands to the status check. *)
Definition response_of (result : future_result) : option IncomingResponse :=
  match result with
  | FutOk (InnerOk r) | FutOk (InnerBare r) | FutBare r => Some r
  | _ => None
  end.

(** The path of a payload through nested objects, as the specification
    writes [main.temp]. *)
Fixpoint json_path (path : list string) (v : json) : option json :=
  match path with
  | [] => Some v
  | k :: path' =>
      match v with
      | JDict d =>
          match dict_lookup k d with
          | Some v' => json_path path' v'
          | None => None
          end
      | _ => None
      end
  end.

Definition is_missing_field_error (e : exn) : Prop :=
  exists field : string,
    e = Exn Exception
          ("Error parsing weather data: missing field "
           ++ squote ++ field ++ squote).

Definition is_JDict (v : json) : bool :=
  match v with JDict _ => true | _ => false end.

(** The chunks a reader accumulates are never empty. *)
Definition nonempty_chunks (chunks : list string) : Prop :=
  Forall (fun c => c <> EmptyString) chunks.

Definition reads_of (n : nat) : list event := repeat (EvBlockingRead 8192) n.

(** The text [{"error": "OPENWEATHER_API_KEY environment variable not set"}]. *)
Definition CONFIG_ERROR_JSON : string :=
  "{" ++ dquote ++ "error" ++ dquote ++ ": " ++ dquote
  ++ "OPENWEATHER_API_KEY environment variable not set" ++ dquote ++ "}".

(** The header mapping that [get_weather] passes to [make_http_request]. *)
Definition WEATHER_HEADERS : list (string * string) :=
  [("User-Agent", "Mozilla/5.0 (compatible; noorle/1.0)")].

(** The unit and the parameters that [check_weather] builds from its
    arguments (lines 195-204). *)
Definition parse_unit (unit : string) : Unit :=
  if String.eqb (str_lower unit) "imperial" then IMPERIAL else METRIC.

Definition params_of (location unit : string) : WeatherParams :=
  {| wp_location := location; wp_unit := parse_unit unit |}.

(** The message that [get_weather] gives to the exception it raises in
    place of [e]. *)
Definition rewrapped_message (e : exn) : string :=
  (if is_KeyError e then "Error parsing weather data: missing field "
   else "Failed to fetch weather: ") ++ exn_str e.

(** The ["weather"] entry of a payload object is absent or a list of
    objects. *)
Definition weather_entry_regular (d : pydict) : Prop :=
  match dict_lookup "weather" d with
  | None => True
  | Some v => exists l, v = JList l /\ Forall (fun w => is_JDict w = true) l
  end.

Section Stages.
Variable json_loads : string -> parse_result.

(** The three stages inside the [try] of [get_weather] all succeed. *)
Definition fetch_succeeds (h : Host) (api_key : string)
    (params : WeatherParams) (weather : WeatherResponse) : Prop :=
  exists body weather_data,
    fst (make_http_request h (request_url api_key params) WEATHER_HEADERS)
      = Ret body /\
    json_loads body = Parsed weather_data /\
    map_weather_data weather_data params = Ret weather.

(** One of the stages raises [e]: the HTTP request (transport, protocol,
    status, body read), the parsing of the body, or the mapping of the
    payload. *)
Definition fetch_raises (h : Host) (api_key : string)
    (params : WeatherParams) (e : exn) : Prop :=
  let fetched :=
    fst (make_http_request h (request_url api_key params) WEATHER_HEADERS) in
  fetched = Raise e \/
  exists body,
    fetched = Ret body /\
    ((exists msg, json_loads body = ParseError msg /\ e = Exn ValueError msg) \/
     exists weather_data,
       json_loads body = Parsed weather_data /\
       map_weather_data weather_data params = Raise e).
End Stages.

(** [c in s] for a character. *)
Fixpoint str_mem (c : ascii) (s : string) : bool :=
  match s with
  | EmptyString => false
  | String a s' => Ascii.eqb a c || str_mem c s'
  end.


(** The unit that [check_weather] puts in effect for a requested [unit]. *)
Definition effective_unit (unit : string) : string :=
  Unit_value (parse_unit unit).

Section UnitInEffect.
Variable float_repr : Z -> Z -> string.
Variable json_loads : string -> parse_result.

End UnitInEffect.





(** ** The order of the host calls *)

(** The chunks that the reader accumulates from a stream: its leading
    non-empty chunks. *)
Fixpoint leading_chunks (body_stream : InputStream) : list string :=
  match body_stream with
  | ReadChunk c :: rest =>
      if (String.length c =? 0)%nat then [] else c :: leading_chunks rest
  | _ => []
  end.

(** The place of each host call in one request. *)
Definition event_rank (ev : event) : nat :=
  match ev with
  | EvGetEnvironment => 0
  | EvFieldsNew => 1
  | EvFieldsAppend _ _ => 2
  | EvRequestNew => 3
  | EvSetMethod _ => 4
  | EvSetScheme _ => 5
  | EvSetAuthority _ => 6
  | EvSetPathWithQuery _ => 7
  | EvHandle _ => 8
  | EvSubscribe => 9
  | EvPoll => 10
  | EvFutureGet => 11
  | EvStatus => 12
  | EvConsume => 13
  | EvStream => 14
  | EvBlockingRead _ => 15
  end%nat.

(** The calls made once per header and once per chunk. *)
Definition repeatable (ev : event) : bool :=
  match ev with
  | EvFieldsAppend _ _ | EvBlockingRead _ => true
  | _ => false
  end.

Definition precedes (a b : event) : Prop :=
  (event_rank a < event_rank b)%nat \/
  (event_rank a = event_rank b /\ repeatable a = true).

(** Every call comes before the calls of a later place, and only the
    repeatable calls occur more than once. *)
Fixpoint protocol_order (t : list event) : Prop :=
  match t with
  | [] => True
  | ev :: t' => Forall (precedes ev) t' /\ protocol_order t'
  end.

Definition within (lo hi : nat) (t : list event) : Prop :=
  Forall (fun ev => (lo <= event_rank ev <= hi)%nat) t.

Definition staged (lo hi : nat) (t : list event) : Prop :=
  protocol_order t /\ within lo hi t.

Definition is_handle (ev : event) : bool :=
  match ev with EvHandle _ => true | _ => false end.

Definition is_get_environment (ev : event) : bool :=
  match ev with EvGetEnvironment => true | _ => false end.

Definition count_events (p : event -> bool) (t : list event) : nat :=
  List.length (filter p t).

(** The headers as [make_http_request] hands them to the host. *)
Definition encoded_headers (items : list (string * string))
    : list (string * string) :=
  map (fun kv => (fst kv, str_encode (snd kv))) items.

(** ** The mapping of a payload, field by field *)

(** The descriptions of the entries that have one, in order. *)
Definition descriptions_of (entries : list pydict) : list json :=
  flat_map (fun d => match dict_lookup "description" d with
                     | Some v => [v]
                     | None => []
                     end) entries.

(** [d.get(k, default)] on the association list. *)
Definition lookup_or (k : string) (d : pydict) (default : json) : json :=
  match dict_lookup k d with
  | Some v => v
  | None => default
  end.

(** The keys that [to_dict] always sets, and those it sets on demand. *)
Definition REQUIRED_KEYS : list string :=
  ["location"; "temperature"; "feels_like_temperature"; "unit";
   "weather_conditions"].

Definition OPTIONAL_KEYS : list string :=
  ["wind_speed"; "wind_degrees"; "humidity"].

(** The response for an object payload [d] whose ["main"] is the object
    [m] with ["temp"] [t] and ["feels_like"] [f], whose wind section is
    the object [wind] (empty when absent), and whose weather entries are
    the objects [entries]. *)
Definition mapped_response (d m wind : pydict) (t f : json)
    (entries : list pydict) (params : WeatherParams) : WeatherResponse :=
  {| wr_location := lookup_or "name" d (JStr EmptyString);
     wr_temperature := t;
     wr_feels_like_temperature := f;
     wr_wind_speed := lookup_or "speed" wind JNull;
     wr_wind_degrees := lookup_or "deg" wind JNull;
     wr_humidity := lookup_or "humidity" m JNull;
     wr_unit := UnitStr (Unit_value (wp_unit params));
     wr_weather_conditions := descriptions_of entries |}.

(** ** Characters of a URL *)

Fixpoint str_forallb (p : ascii -> bool) (s : string) : bool :=
  match s with
  | EmptyString => true
  | String c s' => p c && str_forallb p s'
  end.

(** The characters that [quote] produces: the unreserved ones, the slash
    and the percent sign. *)
Definition quoted_char (c : ascii) : bool :=
  quote_unreserved (nat_of_ascii c) || Ascii.eqb c "%"%char.

Definition ENDPOINT_URL : string := "https://" ++ OPENWEATHER_ENDPOINT.

(** * Sandbox plugin (src/python/python-sandbox/app.py) *)

Module Sandbox.

(** What [handle_exception] reads of an exception: [type(e).__name__]
    and [str(e)]. *)
Record py_exception := {
  exc_type_name : string;
  exc_message : string
}.

(** [handle_exception], lines 18-32: the text carried by the [Err]. *)
Definition handle_exception (e : py_exception) : string :=
  let message := exc_message e in
  if String.eqb message EmptyString
  then exc_type_name e
  else exc_type_name e ++ ": " ++ message.

End Sandbox.

(** * Bundled modules
      (src/python/python-sandbox/additional_modules/__init__.py)

    The body of the package is module-level code: its variables, the
    bindings it makes with [globals()[name] = ...] and the names it reads
    ([globals], [print], [Exception]) all live in one namespace, where a
    binding shadows the builtin of the same name.  The names [importlib]
    and [sys] keep denoting the standard modules: the loop can re-bind
    them only to what [import_module] returns for these names, which is
    the standard module itself. *)

Module AdditionalModules.

Definition newline : string := String "010"%char EmptyString.

(** [s.endswith(suffix)] and [s[:-3]]. *)
Definition ends_with (suffix s : string) : bool :=
  (String.length suffix <=? String.length s)%nat &&
  String.eqb (substring (String.length s - String.length suffix)
                        (String.length suffix) s) suffix.

Definition drop_last3 (s : string) : string :=
  substring 0 (String.length s - 3) s.

(** Line 23: the files that the loop imports, and their module names. *)
Definition qualifies (filename : string) : bool :=
  ends_with ".py" filename && negb (String.eqb filename "__init__.py").

Section Package.
(** The module objects. *)
Variable module : Type.

(** What [importlib.import_module(name)] does: it returns a module,
    raises an exception that [except Exception] catches, or raises one
    that it does not catch ([SystemExit], [KeyboardInterrupt]). *)
Inductive import_result :=
| Imported (m : module)
| ImportFailed (type_name message : string)
| ImportInterrupted (type_name message : string).

Variable import_module : string -> import_result.

Inductive value :=
| VStr (s : string)
| VModule (m : module)
| VException (type_name message : string).

Definition value_type_name (v : value) : string :=
  match v with
  | VStr _ => "str"
  | VModule _ => "module"
  | VException type_name _ => type_name
  end.

(** The namespace of the package: a [dict] from names to values. *)
Definition namespace := list (string * value).

Fixpoint ns_lookup (name : string) (g : namespace) : option value :=
  match g with
  | [] => None
  | (k, v) :: g' => if String.eqb k name then Some v else ns_lookup name g'
  end.

Fixpoint ns_del (name : string) (g : namespace) : namespace :=
  match g with
  | [] => []
  | (k, v) :: g' =>
      if String.eqb k name then ns_del name g' else (k, v) :: ns_del name g'
  end.

Definition ns_set (name : string) (v : value) (g : namespace) : namespace :=
  (name, v) :: ns_del name g.

Definition ns_has (name : string) (g : namespace) : bool :=
  match ns_lookup name g with Some _ => true | None => false end.

Record state := {
  globals : namespace;
  stderr : list string
}.

Inductive result (A : Type) :=
| Done (a : A)
| Raised (type_name message : string).
Arguments Done {A} a.
Arguments Raised {A} type_name message.

Definition not_callable (v : value) : string :=
  squote ++ value_type_name v ++ squote ++ " object is not callable".

(** Lines 29-30, the handler: [except Exception as e] evaluates the name
    [Exception], binds [e], prints the warning to [sys.stderr] and
    unbinds [e]. *)
Definition except_handler (module_name type_name message : string)
    (st : state) : result state :=
  match ns_lookup "Exception" (globals st) with
  | Some _ =>
      Raised "TypeError"
        "catching classes that do not inherit from BaseException is not allowed"
  | None =>
      let g := ns_set "e" (VException type_name message) (globals st) in
      match ns_lookup "print" g with
      | Some v => Raised "TypeError" (not_callable v)
      | None =>
          Done {| globals := ns_del "e" g;
                  stderr :=
                    List.app (stderr st)
                      ["Warning: Failed to import " ++ module_name
                       ++ ": " ++ message ++ newline] |}
      end
  end.

(** Lines 25-30, the [try]: the right-hand side is evaluated first, then
    [globals()], then the subscript. *)
Definition import_one (module_name : string) (st : state) : result state :=
  match import_module module_name with
  | Imported m =>
      match ns_lookup "globals" (globals st) with
      | Some v => except_handler module_name "TypeError" (not_callable v) st
      | None =>
          Done {| globals := ns_set module_name (VModule m) (globals st);
                  stderr := stderr st |}
      end
  | ImportFailed type_name message =>
      except_handler module_name type_name message st
  | ImportInterrupted type_name message =>
      (* the [except] clause still evaluates the name [Exception] *)
      match ns_lookup "Exception" (globals st) with
      | Some _ =>
          Raised "TypeError"
            "catching classes that do not inherit from BaseException is not allowed"
      | None => Raised type_name message
      end
  end.

(** Lines 22-30, the loop over the directory listing. *)
Fixpoint import_all (listing : list string) (st : state) : result state :=
  match listing with
  | [] => Done st
  | _filename :: rest =>
      let st1 := {| globals := ns_set "_filename" (VStr _filename) (globals st);
                    stderr := stderr st |} in
      if ends_with ".py" _filename && negb (String.eqb _filename "__init__.py")
      then
        let _module_name := drop_last3 _filename in
        let st2 := {| globals := ns_set "_module_name" (VStr _module_name)
                                        (globals st1);
                      stderr := stderr st1 |} in
        match import_one _module_name st2 with
        | Done st3 => import_all rest st3
        | Raised t m => Raised t m
        end
      else import_all rest st1
  end.

(** [del name]. *)
Definition del_name (name : string) (g : namespace) : result namespace :=
  if ns_has name g then Done (ns_del name g)
  else Raised "NameError" ("name " ++ squote ++ name ++ squote
                           ++ " is not defined").

(** The body of the package, lines 19-33, run in the namespace [g0] with
    [os.path.dirname(__file__)] being [module_dir] and
    [os.listdir(module_dir)] returning [listing]. *)
Definition package_body (module_dir : string) (listing : list string)
    (g0 : namespace) : result state :=
  let g := ns_set "_module_dir" (VStr module_dir) g0 in
  match import_all listing {| globals := g; stderr := [] |} with
  | Raised t m => Raised t m
  | Done st =>
      match del_name "_module_dir" (globals st) with
      | Raised t m => Raised t m
      | Done g1 =>
          match del_name "_filename" g1 with
          | Raised t m => Raised t m
          | Done g2 =>
              match del_name "_module_name" g2 with
              | Raised t m => Raised t m
              | Done g3 => Done {| globals := g3; stderr := stderr st |}
              end
          end
      end
  end.

(** The warnings that the failed imports of a listing print, in order. *)
Fixpoint warnings (listing : list string) : list string :=
  match listing with
  | [] => []
  | f :: rest =>
      if qualifies f
      then match import_module (drop_last3 f) with
           | ImportFailed _ message =>
               ("Warning: Failed to import " ++ drop_last3 f ++ ": "
                ++ message ++ newline) :: warnings rest
           | _ => warnings rest
           end
      else warnings rest
  end.

(** The names that the package body reads as builtins while it loops. *)
Definition BUILTINS_USED : list string := ["globals"; "print"; "Exception"].

(** The names that the package body uses for itself. *)
Definition TEMPORARIES : list string :=
  ["_module_dir"; "_filename"; "_module_name"; "e"].

(** The listing has no file whose module would shadow a builtin that the
    loop reads, and no import is interrupted. *)
Definition undisturbed (listing : list string) : Prop :=
  forall f, In f listing -> qualifies f = true ->
    ~ In (drop_last3 f) BUILTINS_USED /\
    (forall t m, import_module (drop_last3 f) <> ImportInterrupted t m).

(** A namespace that leaves the builtins alone, as a fresh module's. *)
Definition builtins_visible (g : namespace) : Prop :=
  forall name, In name BUILTINS_USED -> ns_lookup name g = None.

(** [name] is the module name of a file that the loop imports. *)
Definition is_module_of (listing : list string) (name : string) : bool :=
  existsb (fun f => qualifies f && String.eqb (drop_last3 f) name) listing.

End Package.

Arguments Done {A} a.
Arguments Raised {A} type_name message.
Arguments Imported {module} m.
Arguments ImportFailed {module} type_name message.
Arguments ImportInterrupted {module} type_name message.
Arguments VStr {module} s.
Arguments VModule {module} m.
Arguments VException {module} type_name message.
Arguments value_type_name {module} v.
Arguments not_callable {module} v.
Arguments ns_lookup {module} name g.
Arguments ns_del {module} name g.
Arguments ns_set {module} name v g.
Arguments ns_has {module} name g.
Arguments Build_state {module} globals stderr.
Arguments globals {module} s.
Arguments stderr {module} s.
Arguments except_handler {module} module_name type_name message st.
Arguments import_one {module} import_module module_name st.
Arguments import_all {module} import_module listing st.
Arguments del_name {module} name g.
Arguments package_body {module} import_module module_dir listing g0.
Arguments warnings {module} import_module listing.
Arguments undisturbed {module} import_module listing.
Arguments builtins_visible {module} g.

End AdditionalModules.

(** * Properties *)

(** ** Computations *)

Lemma bind_ret_fst {A B} (m : M A) (k : A -> M B) (a : A) :
  fst m = Ret a -> fst (bind m k) = fst (k a).
Proof. unfold bind; intros ->; reflexivity. Qed.

Lemma bind_raise_fst {A B} (m : M A) (k : A -> M B) (e : exn) :
  fst m = Raise e -> fst (bind m k) = Raise e.
Proof. unfold bind; intros ->; reflexivity. Qed.

Lemma bind_ret_snd {A B} (m : M A) (k : A -> M B) (a : A) :
  fst m = Ret a -> snd (bind m k) = (snd m ++ snd (k a))%list.
Proof. unfold bind; intros ->; reflexivity. Qed.

Lemma bind_raise_snd {A B} (m : M A) (k : A -> M B) (e : exn) :
  fst m = Raise e -> snd (bind m k) = snd m.
Proof. unfold bind; intros ->; reflexivity. Qed.

(** An event of [bind m k] comes from [m] or from the continuation. *)
Lemma bind_trace_in {A B} (m : M A) (k : A -> M B) (ev : event) :
  In ev (snd (bind m k)) ->
  In ev (snd m) \/ exists a, fst m = Ret a /\ In ev (snd (k a)).
Proof.
  unfold bind. destruct (fst m) as [a|e] eqn:E; simpl; intro H.
  - apply in_app_or in H. destruct H as [H|H]; [now left|].
    right. exists a. split; [reflexivity|exact H].
  - now left.
Qed.

Lemma call_result_trace {A} (ev : event) (r : host_result A) :
  snd (call_result ev r) = [ev].
Proof. destruct r; reflexivity. Qed.

Lemma str_length_zero (s : string) :
  (String.length s =? 0)%nat = true <-> s = EmptyString.
Proof.
  destruct s; simpl; split; intro H; try reflexivity; discriminate.
Qed.

Lemma str_length_nonzero (s : string) :
  s <> EmptyString -> (String.length s =? 0)%nat = false.
Proof. destruct s; simpl; [congruence|reflexivity]. Qed.

(** ** The result unwrapper *)

Lemma unwrap_response (result : future_result) (r : IncomingResponse) :
  response_of result = Some r ->
  result_unwrapper result =
    (if negb ((200 <=? resp_status r) && (resp_status r <? 300))
     then Raise (Exn Exception
                   ("HTTP error: status code " ++ str_of_int (resp_status r)))
     else Ret r, [EvStatus]).
Proof.
  intro H.
  destruct result as [| d | [c | r' | r'] | r']; simpl in H;
    try discriminate; injection H as ->;
    unfold result_unwrapper, bind, call; simpl;
    destruct (negb _); reflexivity.
Qed.

(** C2: once both outcome layers are unwrapped to a response, the status
    check lets through exactly the statuses [200 <= s < 300] and raises
    ["HTTP error: status code s"] for every other one; 204 and 299 pass,
    300 and 404 fail with their code in the message. *)
Theorem status_check_accepts_exactly_2xx :
  forall (result : future_result) (r : IncomingResponse),
    response_of result = Some r ->
    (200 <= resp_status r < 300 ->
       fst (result_unwrapper result) = Ret r) /\
    (~ (200 <= resp_status r < 300) ->
       fst (result_unwrapper result) =
         Raise (Exn Exception
                  ("HTTP error: status code " ++ str_of_int (resp_status r)))) /\
    (forall body,
       let resp := fun s => {| resp_status := s; resp_consume := body |} in
       fst (result_unwrapper (FutOk (InnerOk (resp 204)))) = Ret (resp 204) /\
       fst (result_unwrapper (FutOk (InnerOk (resp 299)))) = Ret (resp 299) /\
       fst (result_unwrapper (FutOk (InnerOk (resp 300)))) =
         Raise (Exn Exception "HTTP error: status code 300") /\
       fst (result_unwrapper (FutOk (InnerOk (resp 404)))) =
         Raise (Exn Exception "HTTP error: status code 404")).
Proof.
  intros result r H. rewrite (unwrap_response _ _ H). simpl.
  split; [|split].
  - intros [Hlo Hhi].
    apply Z.leb_le in Hlo. apply Z.ltb_lt in Hhi.
    rewrite Hlo, Hhi. reflexivity.
  - intro Hout.
    destruct (200 <=? resp_status r) eqn:Hlo;
      destruct (resp_status r <? 300) eqn:Hhi; simpl; try reflexivity.
    exfalso. apply Hout. split; [now apply Z.leb_le | now apply Z.ltb_lt].
  - intros body. repeat split; reflexivity.
Qed.

Lemma status_check_accepts_exactly_2xx_witness :
  fst (result_unwrapper (FutOk (InnerOk (response_with 204 reads_ab_cd)))) =
    Ret (response_with 204 reads_ab_cd).
Proof.
  apply (proj1 (status_check_accepts_exactly_2xx
                  (FutOk (InnerOk (response_with 204 reads_ab_cd))) _ eq_refl)).
  simpl. lia.
Defined.

(** ** Order of the checks: the status is read last *)




Lemma transport_driver_get h request result :
  fst (transport_driver h request) = Ret result ->
  exists f, host_handle h request = HostOk f /\ future_get f = result.
Proof.
  unfold transport_driver, bind, call, call_result.
  destruct (host_handle h request) as [f|d]; simpl; intro H.
  - exists f. split; [reflexivity|]. congruence.
  - discriminate.
Qed.



Lemma result_unwrapper_ret result r :
  fst (result_unwrapper result) = Ret r -> response_of result = Some r.
Proof.
  intro H. destruct (response_of result) as [r'|] eqn:E.
  - rewrite (unwrap_response _ _ E) in H. simpl in H.
    destruct (negb _); [discriminate|congruence].
  - destruct result as [| d | [c | r' | r'] | r']; simpl in *; discriminate.
Qed.




(** ** The body stream reader *)

Lemma read_loop_until (chunks : list string) (last : read_outcome)
    (rest : InputStream) (acc : list string) :
  nonempty_chunks chunks ->
  (forall c, last = ReadChunk c -> c = EmptyString) ->
  read_loop (map ReadChunk chunks ++ last :: rest)%list acc =
    (((acc ++ chunks)%list,
      match last with
      | ReadChunk _ => None
      | ReadError detail => Some (Exn HostErr detail)
      end),
     reads_of (S (List.length chunks))).
Proof.
  intros Hne Hlast. revert acc.
  induction Hne as [|c chunks Hc Hne IH]; intros acc; simpl.
  - rewrite app_nil_r. destruct last as [c|d]; [|reflexivity].
    rewrite (Hlast c eq_refl). reflexivity.
  - rewrite (str_length_nonzero _ Hc), IH, <- app_assoc. reflexivity.
Qed.

Lemma read_loop_exhausted (chunks : list string) (acc : list string) :
  nonempty_chunks chunks ->
  read_loop (map ReadChunk chunks) acc =
    (((acc ++ chunks)%list, Some (Exn HostErr stream_closed)),
     reads_of (S (List.length chunks))).
Proof.
  intros Hne. revert acc.
  induction Hne as [|c chunks Hc Hne IH]; intros acc; simpl.
  - rewrite app_nil_r. reflexivity.
  - rewrite (str_length_nonzero _ Hc), IH, <- app_assoc. reflexivity.
Qed.

(** C3: when a read raises a stream error after the non-empty chunks
    [chunks] were accumulated, the reader returns their concatenation if
    there is at least one, and raises ["Failed to read response body: ..."]
    if there is none; so [b"ab"] then an error gives [b"ab"], and an error
    at the first read fails. *)
Theorem stream_error_keeps_partial_body :
  forall (chunks : list string) (detail : string) (rest : InputStream),
    nonempty_chunks chunks ->
    let body_stream := (map ReadChunk chunks ++ ReadError detail :: rest)%list in
    (chunks <> [] -> fst (read_body body_stream) = Ret (bytes_join chunks)) /\
    (chunks = [] ->
       fst (read_body body_stream) =
         Raise (Exn Exception ("Failed to read response body: " ++ detail))) /\
    fst (read_body [ReadChunk "ab"; ReadError detail]) = Ret "ab" /\
    fst (read_body [ReadError detail]) =
      Raise (Exn Exception ("Failed to read response body: " ++ detail)).
Proof.
  intros chunks detail rest Hne body_stream. subst body_stream.
  unfold read_body.
  rewrite (read_loop_until _ (ReadError detail) rest [] Hne)
    by (intros c Hc; discriminate).
  simpl. repeat split.
  - intro Hnil. destruct chunks; [congruence|reflexivity].
  - intros ->. reflexivity.
Qed.

Lemma stream_error_keeps_partial_body_witness :
  fst (read_body [ReadChunk "ab"; ReadChunk "c"; ReadError "reset"; ReadChunk "d"])
    = Ret "abc".
Proof.
  apply (proj1 (@stream_error_keeps_partial_body
                  ["ab"; "c"] "reset" [ReadChunk "d"]
                  ltac:(repeat constructor; discriminate))).
  discriminate.
Defined.

(** C5: on a stream that delivers the non-empty chunks [chunks] and then a
    zero-length read, the reader issues one [blocking_read(8192)] per
    chunk and one for the empty read, stops there whatever the stream
    would deliver next, and returns the chunks concatenated in arrival
    order; [b"ab"], [b"cd"], [b""] gives [b"abcd"]. *)
Theorem reader_stops_at_first_empty_read :
  forall (chunks : list string) (rest : InputStream),
    nonempty_chunks chunks ->
    read_body (map ReadChunk chunks ++ ReadChunk EmptyString :: rest)%list =
      (Ret (bytes_join chunks), reads_of (S (List.length chunks))) /\
    fst (read_body [ReadChunk "ab"; ReadChunk "cd"; ReadChunk EmptyString]) =
      Ret "abcd".
Proof.
  intros chunks rest Hne. split; [|reflexivity].
  unfold read_body.
  rewrite (read_loop_until _ (ReadChunk EmptyString) rest [] Hne)
    by (intros c Hc; congruence).
  reflexivity.
Qed.

Lemma reader_stops_at_first_empty_read_witness :
  read_body [ReadChunk "ab"; ReadChunk "cd"; ReadChunk EmptyString;
             ReadChunk "ef"] =
    (Ret "abcd", reads_of 3).
Proof.
  apply (proj1 (@reader_stops_at_first_empty_read
                  ["ab"; "cd"] [ReadChunk "ef"]
                  ltac:(repeat constructor; discriminate))).
Defined.

(** ** [get_weather] and [check_weather] *)

Section Properties.
Variable float_repr : Z -> Z -> string.
Variable json_loads : string -> parse_result.

Ltac unfold_get_weather := unfold get_weather.
Ltac unfold_check_weather := unfold check_weather.

Abbreviation get_weather := (get_weather json_loads).
Abbreviation check_weather := (check_weather float_repr json_loads).
Abbreviation dumps := (json_dumps float_repr).

Lemma get_weather_cases h api_key params :
  (exists weather,
     get_weather h api_key params =
       (Ret weather,
        snd (make_http_request h (request_url api_key params) WEATHER_HEADERS))
     /\ fetch_succeeds json_loads h api_key params weather) \/
  (exists e,
     get_weather h api_key params =
       (Raise (Exn Exception (rewrapped_message e)),
        snd (make_http_request h (request_url api_key params) WEATHER_HEADERS))
     /\ fetch_raises json_loads h api_key params e).
Proof.
  unfold_get_weather.
  unfold fetch_succeeds, fetch_raises, try_except, bind, lift, load_body,
    raise, rewrapped_message.
  change [("User-Agent", "Mozilla/5.0 (compatible; noorle/1.0)")]
    with WEATHER_HEADERS.
  destruct (make_http_request h (request_url api_key params) WEATHER_HEADERS)
    as [[body|e] t]; cbn [fst snd].
  - destruct (json_loads body) as [data|msg] eqn:Hload; cbn [fst snd].
    + destruct (map_weather_data data params) as [w|e] eqn:Hmap; cbn [fst snd].
      * left. exists w. rewrite ?app_nil_r. split; [reflexivity|].
        exists body, data. auto.
      * right. exists e. split.
        { destruct (is_KeyError e); cbn [fst snd]; rewrite ?app_nil_r;
            reflexivity. }
        right. exists body. split; [reflexivity|].
        right. exists data. auto.
    + right. exists (Exn ValueError msg). split.
      { cbn [fst snd is_KeyError exn_cls]. rewrite ?app_nil_r. reflexivity. }
      right. exists body. split; [reflexivity|].
      left. exists msg. auto.
  - right. exists e. split.
    { destruct (is_KeyError e); cbn [fst snd]; rewrite ?app_nil_r;
        reflexivity. }
    now left.
Qed.

Lemma check_weather_no_key h location unit :
  find_api_key (host_environment h) = None \/
  find_api_key (host_environment h) = Some EmptyString ->
  check_weather h location unit = (Ret CONFIG_ERROR_JSON, [EvGetEnvironment]).
Proof.
  unfold_check_weather. unfold bind, call. simpl.
  intros [-> | ->]; reflexivity.
Qed.

Lemma check_weather_with_key h location unit api_key :
  find_api_key (host_environment h) = Some api_key ->
  api_key <> EmptyString ->
  check_weather h location unit =
    (match fst (get_weather h api_key (params_of location unit)) with
     | Ret weather => Ret (dumps (JDict (to_dict weather)))
     | Raise e =>
         Ret (dumps (JDict [("error",
                             JStr ("Failed to fetch weather: " ++ exn_str e))]))
     end,
     EvGetEnvironment :: snd (get_weather h api_key (params_of location unit))).
Proof.
  intros Hkey Hne.
  unfold_check_weather. unfold bind, call. simpl.
  rewrite Hkey, (str_length_nonzero _ Hne).
  unfold try_except, bind, ret, error_json.
  change {| wp_location := location;
            wp_unit := if String.eqb (str_lower unit) "imperial"
                       then IMPERIAL else METRIC |}
    with (params_of location unit).
  destruct (get_weather h api_key (params_of location unit)) as [[w|e] t];
    simpl; rewrite ?app_nil_r; reflexivity.
Qed.


Lemma to_dict_unit weather :
  dict_lookup "unit" (to_dict weather) =
    Some (match wr_unit weather with
          | UnitMember u => JStr (str_lower (Unit_value u))
          | UnitStr s => JStr s
          end).
Proof.
  unfold to_dict.
  destruct (is_None (wr_wind_speed weather)),
           (is_None (wr_wind_degrees weather)),
           (is_None (wr_humidity weather)); reflexivity.
Qed.

(** *** What is handed to [json.dumps] *)

Ltac invert_obind H :=
  repeat match type of H with
    | obind ?o _ = Ret _ =>
        let E := fresh "E" in
        destruct o eqn:E; cbn [obind] in H; [|discriminate H]
    end.








(** *** The credential *)

Lemma find_api_key_absent env_vars :
  ~ In API_KEY_NAME (map fst env_vars) -> find_api_key env_vars = None.
Proof.
  induction env_vars as [|var rest IH]; simpl; intro H; [reflexivity|].
  destruct (String.eqb_spec (fst var) API_KEY_NAME) as [E|_].
  - exfalso. apply H. now left.
  - apply IH. intro Hin. apply H. now right.
Qed.

Lemma find_api_key_first before value after :
  ~ In API_KEY_NAME (map fst before) ->
  find_api_key (before ++ (API_KEY_NAME, value) :: after)%list = Some value.
Proof.
  induction before as [|var rest IH]; simpl; intro H.
  - reflexivity.
  - destruct (String.eqb_spec (fst var) API_KEY_NAME) as [E|_].
    + exfalso. apply H. now left.
    + apply IH. intro Hin. apply H. now right.
Qed.

(** C4: when no environment variable is named [OPENWEATHER_API_KEY],
    [check_weather] returns exactly the configuration-error text and the
    only host call it makes is the reading of the environment: nothing
    of the HTTP transport is called. *)
Theorem missing_credential_short_circuits :
  forall (h : Host) (location unit : string),
    ~ In API_KEY_NAME (map fst (host_environment h)) ->
    check_weather h location unit = (Ret CONFIG_ERROR_JSON, [EvGetEnvironment]) /\
    existsb is_network_event (snd (check_weather h location unit)) = false.
Proof.
  intros h location unit Habsent.
  rewrite check_weather_no_key
    by (left; apply find_api_key_absent; exact Habsent).
  split; reflexivity.
Qed.

(** C10: when the first variable named [OPENWEATHER_API_KEY] is bound
    to the empty string, [check_weather] answers as for an absent
    credential: the configuration-error text, and no call to the HTTP
    transport. *)
Theorem empty_credential_short_circuits :
  forall (h : Host) (location unit : string)
         (before after : list (string * string)),
    ~ In API_KEY_NAME (map fst before) ->
    host_environment h =
      (before ++ (API_KEY_NAME, EmptyString) :: after)%list ->
    check_weather h location unit = (Ret CONFIG_ERROR_JSON, [EvGetEnvironment]) /\
    existsb is_network_event (snd (check_weather h location unit)) = false.
Proof.
  intros h location unit before after Hbefore Henv.
  rewrite check_weather_no_key
    by (right; rewrite Henv; apply find_api_key_first; exact Hbefore).
  split; reflexivity.
Qed.

(** *** The path and query of the request *)

Lemma str_app_assoc (a b c : string) : (a ++ b) ++ c = a ++ (b ++ c).
Proof. induction a as [|x a IH]; simpl; [reflexivity|now rewrite IH]. Qed.

Lemma starts_with_length pat s :
  starts_with pat s = true -> (String.length pat <= String.length s)%nat.
Proof.
  revert s. induction pat as [|a pat IH]; intros [|b s]; simpl; intro H;
    try lia; try discriminate.
  apply andb_prop in H. destruct H as [_ H]. apply IH in H. lia.
Qed.

Lemma starts_with_app pat s t :
  starts_with pat s = true -> starts_with pat (s ++ t) = true.
Proof.
  revert s. induction pat as [|a pat IH]; intros [|b s]; simpl; intro H;
    try reflexivity; try discriminate.
  apply andb_prop in H. destruct H as [Hab H].
  rewrite Hab, (IH _ H). reflexivity.
Qed.

(** A match cannot run over a character that the pattern lacks. *)
Lemma starts_with_stop pat s c t :
  str_mem c pat = false ->
  starts_with pat (s ++ String c t) = true -> starts_with pat s = true.
Proof.
  revert s. induction pat as [|a pat IH]; intros s Hmem H; simpl in *.
  - destruct s; reflexivity.
  - apply orb_false_elim in Hmem. destruct Hmem as [Hac Hmem].
    destruct s as [|b s]; simpl in *.
    + rewrite Hac in H. discriminate.
    + apply andb_prop in H. destruct H as [Hab H].
      rewrite Hab, (IH _ Hmem H). reflexivity.
Qed.

Lemma remove_all_from_app pat skip s c t :
  str_mem c pat = false ->
  (skip <= String.length s)%nat ->
  remove_all_from pat skip (s ++ String c t) =
    remove_all_from pat skip s ++ remove_all_from pat O (String c t).
Proof.
  intro Hmem. revert skip.
  induction s as [|a s IH]; intros skip Hskip.
  - simpl in Hskip. assert (skip = O) by lia. subst. reflexivity.
  - cbn [append remove_all_from]. destruct skip as [|k].
    + destruct (starts_with pat (String a s)) eqn:Hs.
      * change (String a (s ++ String c t)) with (String a s ++ String c t).
        rewrite (starts_with_app _ _ (String c t) Hs).
        apply IH. apply starts_with_length in Hs. simpl in Hs. lia.
      * change (String a (s ++ String c t)) with (String a s ++ String c t).
        destruct (starts_with pat (String a s ++ String c t)) eqn:Hst.
        { apply (starts_with_stop _ _ _ _ Hmem) in Hst. congruence. }
        cbn [append]. rewrite IH by lia. reflexivity.
    + apply IH. simpl in Hskip. lia.
Qed.








Lemma get_weather_trace h api_key params :
  snd (get_weather h api_key params) =
    snd (make_http_request h (request_url api_key params) WEATHER_HEADERS).
Proof.
  destruct (get_weather_cases h api_key params) as [[w [-> _]]|[e [-> _]]];
    reflexivity.
Qed.


(** *** The stages of [get_weather] *)

Lemma get_weather_ret h api_key params weather :
  fetch_succeeds json_loads h api_key params weather ->
  fst (get_weather h api_key params) = Ret weather.
Proof.
  intros [body [data [Hhttp [Hload Hmap]]]].
  unfold_get_weather. unfold try_except, bind, lift, load_body.
  change [("User-Agent", "Mozilla/5.0 (compatible; noorle/1.0)")]
    with WEATHER_HEADERS.
  rewrite Hhttp. cbn [fst snd]. rewrite Hload. cbn [fst snd].
  rewrite Hmap. reflexivity.
Qed.

Lemma get_weather_mapping_raises h api_key params body weather_data e :
  fst (make_http_request h (request_url api_key params) WEATHER_HEADERS)
    = Ret body ->
  json_loads body = Parsed weather_data ->
  map_weather_data weather_data params = Raise e ->
  fst (get_weather h api_key params) =
    Raise (Exn Exception (rewrapped_message e)).
Proof.
  intros Hhttp Hload Hmap.
  unfold_get_weather.
  unfold try_except, bind, lift, load_body, rewrapped_message.
  change [("User-Agent", "Mozilla/5.0 (compatible; noorle/1.0)")]
    with WEATHER_HEADERS.
  rewrite Hhttp. cbn [fst snd]. rewrite Hload. cbn [fst snd].
  rewrite Hmap. cbn [fst snd].
  destruct (is_KeyError e); reflexivity.
Qed.

Lemma map_weather_data_unit weather_data params weather :
  map_weather_data weather_data params = Ret weather ->
  wr_unit weather = UnitStr (Unit_value (wp_unit params)).
Proof.
  unfold map_weather_data. intro H. invert_obind H.
  injection H as <-. reflexivity.
Qed.

Lemma check_weather_success h location unit api_key weather :
  find_api_key (host_environment h) = Some api_key ->
  api_key <> EmptyString ->
  fetch_succeeds json_loads h api_key (params_of location unit) weather ->
  fst (check_weather h location unit) = Ret (dumps (JDict (to_dict weather))) /\
  dict_lookup "unit" (to_dict weather) = Some (JStr (effective_unit unit)).
Proof.
  intros Hkey Hne Hok.
  rewrite (check_weather_with_key h location unit api_key Hkey Hne).
  rewrite (get_weather_ret _ _ _ _ Hok). split; [reflexivity|].
  destruct Hok as [body [data [_ [_ Hmap]]]].
  rewrite to_dict_unit, (map_weather_data_unit _ _ _ Hmap). reflexivity.
Qed.

(** *** The unit *)




(** C7 (amended): whatever the payload, the ["unit"] of the serialized
    response is the unit in effect - ["imperial"] when the requested
    unit lower-cases to ["imperial"], ["metric"] otherwise; it equals
    the lower-cased requested unit exactly when that is one of the two
    names. *)
Theorem response_unit_is_unit_in_effect :
  forall (h : Host) (location unit api_key : string)
         (weather : WeatherResponse),
    find_api_key (host_environment h) = Some api_key ->
    api_key <> EmptyString ->
    fetch_succeeds json_loads h api_key (params_of location unit) weather ->
    fst (check_weather h location unit) = Ret (dumps (JDict (to_dict weather))) /\
    dict_lookup "unit" (to_dict weather) =
      Some (JStr (if String.eqb (str_lower unit) "imperial"
                  then "imperial" else "metric")) /\
    (dict_lookup "unit" (to_dict weather) = Some (JStr (str_lower unit)) <->
     str_lower unit = "imperial" \/ str_lower unit = "metric").
Proof.
  intros h location unit api_key weather Hkey Hne Hok.
  destruct (check_weather_success h location unit api_key weather Hkey Hne Hok)
    as [Hret Hunit].
  split; [exact Hret|]. rewrite Hunit.
  unfold effective_unit, parse_unit.
  destruct (String.eqb_spec (str_lower unit) "imperial") as [E|E]; simpl.
  - split; [reflexivity|]. rewrite E. split; auto.
  - split; [reflexivity|]. split.
    + intro H. injection H as H. now right.
    + intros [H|H]; [contradiction|]. now rewrite H.
Qed.

(** *** The mapping of the payload *)

Lemma collect_descriptions_objects entries :
  Forall (fun w => is_JDict w = true) entries ->
  exists ds, collect_descriptions entries = Ret ds.
Proof.
  induction 1 as [|w entries Hw _ [ds IH]]; simpl.
  - eexists; reflexivity.
  - destruct w; try discriminate. simpl.
    destruct (dict_has "description" d).
    + destruct (dict_lookup "description" d); simpl; rewrite IH;
        eexists; reflexivity.
    + exists ds. exact IH.
Qed.

(** On an object payload with a regular ["weather"] entry, the mapper
    gets as far as the look-up of ["main"]. *)
Lemma map_weather_data_reaches_main d params :
  weather_entry_regular d ->
  exists conditions,
    map_weather_data (JDict d) params =
      obind (py_getitem (JDict d) "main")
        (fun main =>
           temperature <~ py_getitem main "temp" ;;
           main' <~ py_getitem (JDict d) "main" ;;
           feels_like_temperature <~ py_getitem main' "feels_like" ;;
           wind <~ py_get (JDict d) "wind" (JDict []) ;;
           wind_speed <~ py_get wind "speed" JNull ;;
           wind' <~ py_get (JDict d) "wind" (JDict []) ;;
           wind_degrees <~ py_get wind' "deg" JNull ;;
           main'' <~ py_get (JDict d) "main" (JDict []) ;;
           humidity <~ py_get main'' "humidity" JNull ;;
           Ret {| wr_location :=
                    match dict_lookup "name" d with
                    | Some v => v
                    | None => JStr EmptyString
                    end;
                  wr_temperature := temperature;
                  wr_feels_like_temperature := feels_like_temperature;
                  wr_wind_speed := wind_speed;
                  wr_wind_degrees := wind_degrees;
                  wr_humidity := humidity;
                  wr_unit := UnitStr (Unit_value (wp_unit params));
                  wr_weather_conditions := conditions |}).
Proof.
  unfold weather_entry_regular, map_weather_data. intro Hreg.
  cbn [py_contains obind]. unfold dict_has.
  destruct (dict_lookup "weather" d) as [v|] eqn:Hw.
  - destruct Hreg as [l [-> Hl]].
    destruct (collect_descriptions_objects l Hl) as [ds Hds].
    exists ds. cbn [py_getitem]. rewrite Hw. cbn [obind py_iter].
    rewrite Hds. cbn [obind py_get].
    destruct (dict_lookup "name" d); reflexivity.
  - exists []. cbn [obind py_get].
    destruct (dict_lookup "name" d); reflexivity.
Qed.

Lemma map_weather_data_missing d params :
  weather_entry_regular d ->
  (dict_lookup "main" d = None ->
     map_weather_data (JDict d) params =
       Raise (Exn KeyError (squote ++ "main" ++ squote))) /\
  (forall m,
     dict_lookup "main" d = Some (JDict m) ->
     dict_lookup "temp" m = None ->
     map_weather_data (JDict d) params =
       Raise (Exn KeyError (squote ++ "temp" ++ squote))).
Proof.
  intro Hreg.
  destruct (map_weather_data_reaches_main d params Hreg) as [conds ->].
  split.
  - intro Hmain. cbn [py_getitem]. rewrite Hmain. reflexivity.
  - intros m Hmain Htemp. cbn [py_getitem]. rewrite Hmain.
    cbn [obind py_getitem]. rewrite Htemp. reflexivity.
Qed.

(** C6 (amended): the payload [{"main":{"temp":21.0,"feels_like":20.5}}]
    is serialized as the object with the keys [location], [temperature],
    [feels_like_temperature], [unit] and [weather_conditions] only -
    without [wind_speed], [wind_degrees] and [humidity], and with an
    empty list of conditions.  For a payload that is an object whose
    ["weather"] entry is absent or a list of objects, [get_weather]
    raises the missing-field error naming ['main'] when ["main"] is
    absent, and naming ['temp'] when ["main"] is an object without
    ["temp"]. *)
Theorem mapper_omits_absent_fields_and_names_missing :
  (forall (h : Host) (location unit api_key body : string),
     find_api_key (host_environment h) = Some api_key ->
     api_key <> EmptyString ->
     fst (make_http_request h (request_url api_key (params_of location unit))
                            WEATHER_HEADERS) = Ret body ->
     json_loads body = Parsed payload_main_only ->
     let obj :=
       [ ("location", JStr EmptyString);
         ("temperature", float_21_0);
         ("feels_like_temperature", float_20_5);
         ("unit", JStr (effective_unit unit));
         ("weather_conditions", JList []) ] in
     fst (check_weather h location unit) = Ret (dumps (JDict obj)) /\
     dict_lookup "wind_speed" obj = None /\
     dict_lookup "wind_degrees" obj = None /\
     dict_lookup "humidity" obj = None /\
     dict_lookup "weather_conditions" obj = Some (JList [])) /\
  (forall (h : Host) (api_key body : string) (params : WeatherParams)
          (d : pydict),
     fst (make_http_request h (request_url api_key params) WEATHER_HEADERS)
       = Ret body ->
     json_loads body = Parsed (JDict d) ->
     weather_entry_regular d ->
     (dict_lookup "main" d = None ->
        fst (get_weather h api_key params) =
          Raise (Exn Exception
                   ("Error parsing weather data: missing field "
                    ++ squote ++ "main" ++ squote))) /\
     (forall m,
        dict_lookup "main" d = Some (JDict m) ->
        dict_lookup "temp" m = None ->
        fst (get_weather h api_key params) =
          Raise (Exn Exception
                   ("Error parsing weather data: missing field "
                    ++ squote ++ "temp" ++ squote)))).
Proof.
  split.
  - intros h location unit api_key body Hkey Hne Hhttp Hload obj.
    assert (Hok : fetch_succeeds json_loads h api_key (params_of location unit)
                    {| wr_location := JStr EmptyString;
                       wr_temperature := float_21_0;
                       wr_feels_like_temperature := float_20_5;
                       wr_wind_speed := JNull;
                       wr_wind_degrees := JNull;
                       wr_humidity := JNull;
                       wr_unit := UnitStr (effective_unit unit);
                       wr_weather_conditions := [] |}).
    { exists body, payload_main_only. repeat split; assumption || reflexivity. }
    destruct (check_weather_success h location unit api_key _ Hkey Hne Hok)
      as [Hret _].
    rewrite Hret. repeat split; reflexivity.
  - intros h api_key body params d Hhttp Hload Hreg.
    destruct (map_weather_data_missing d params Hreg) as [Hmain Htemp].
    split.
    + intro H.
      rewrite (get_weather_mapping_raises h api_key params body _ _
                 Hhttp Hload (Hmain H)).
      reflexivity.
    + intros m H1 H2.
      rewrite (get_weather_mapping_raises h api_key params body _ _
                 Hhttp Hload (Htemp m H1 H2)).
      reflexivity.
Qed.
End Properties.

(** * Instances *)

Lemma missing_credential_short_circuits_witness :
  check_weather exact_float_repr (loads_const payload_main_only)
                (host_with env_without_key FutNone) "Oslo" "metric"
    = (Ret CONFIG_ERROR_JSON, [EvGetEnvironment]).
Proof.
  apply (proj1 (missing_credential_short_circuits
                  exact_float_repr (loads_const payload_main_only)
                  (host_with env_without_key FutNone) "Oslo" "metric"
                  ltac:(simpl; intros [H|[]]; discriminate))).
Defined.

Lemma empty_credential_short_circuits_witness :
  check_weather exact_float_repr (loads_const payload_main_only)
                (host_with env_empty_key FutNone) "Oslo" "metric"
    = (Ret CONFIG_ERROR_JSON, [EvGetEnvironment]).
Proof.
  apply (proj1 (empty_credential_short_circuits
                  exact_float_repr (loads_const payload_main_only)
                  (host_with env_empty_key FutNone) "Oslo" "metric"
                  [("HOME", "/")] []
                  ltac:(simpl; intros [H|[]]; discriminate)
                  eq_refl)).
Defined.

(** The response that [host_ok] and the payload
    [{"main":{"temp":21.0,"feels_like":20.5}}] lead to. *)
Lemma host_ok_fetch_succeeds (unit : string) :
  fetch_succeeds (loads_const payload_main_only) host_ok "k3y"
    (params_of "Oslo" unit)
    {| wr_location := JStr EmptyString;
       wr_temperature := float_21_0;
       wr_feels_like_temperature := float_20_5;
       wr_wind_speed := JNull;
       wr_wind_degrees := JNull;
       wr_humidity := JNull;
       wr_unit := UnitStr (effective_unit unit);
       wr_weather_conditions := [] |}.
Proof.
  exists "abcd", payload_main_only. repeat split; reflexivity.
Qed.


Lemma response_unit_is_unit_in_effect_witness :
  exists weather,
    fst (check_weather exact_float_repr (loads_const payload_main_only)
                       host_ok "Oslo" "Imperial") =
      Ret (json_dumps exact_float_repr (JDict (to_dict weather))) /\
    dict_lookup "unit" (to_dict weather) = Some (JStr "imperial").
Proof.
  eexists.
  pose proof (response_unit_is_unit_in_effect
                exact_float_repr (loads_const payload_main_only)
                host_ok "Oslo" "Imperial" "k3y" _
                eq_refl ltac:(discriminate)
                (host_ok_fetch_succeeds "Imperial")) as [H1 [H2 _]].
  split; [exact H1|exact H2].
Defined.

(** C7, as stated, fails: for the requested unit ["Kelvin"] the call
    succeeds and the serialized ["unit"] is ["metric"], not the
    lower-cased request ["kelvin"]. *)
Lemma response_unit_not_lowercased_request :
  exists weather,
    fetch_succeeds (loads_const payload_main_only) host_ok "k3y"
                   (params_of "Oslo" "Kelvin") weather /\
    fst (check_weather exact_float_repr (loads_const payload_main_only)
                       host_ok "Oslo" "Kelvin") =
      Ret (json_dumps exact_float_repr (JDict (to_dict weather))) /\
    str_lower "Kelvin" = "kelvin" /\
    dict_lookup "unit" (to_dict weather) = Some (JStr "metric") /\
    dict_lookup "unit" (to_dict weather) <> Some (JStr (str_lower "Kelvin")).
Proof.
  eexists. split; [apply (host_ok_fetch_succeeds "Kelvin")|].
  repeat split; try reflexivity. discriminate.
Qed.

Lemma mapper_omits_absent_fields_and_names_missing_witness :
  fst (check_weather exact_float_repr (loads_const payload_main_only)
                     host_ok "Oslo" "metric") =
    Ret (json_dumps exact_float_repr
           (JDict [ ("location", JStr EmptyString);
                    ("temperature", float_21_0);
                    ("feels_like_temperature", float_20_5);
                    ("unit", JStr "metric");
                    ("weather_conditions", JList []) ])) /\
  fst (get_weather (loads_const payload_no_temp) host_ok "k3y"
                   (params_of "Oslo" "metric")) =
    Raise (Exn Exception "Error parsing weather data: missing field 'temp'").
Proof.
  split.
  - apply (proj1 (mapper_omits_absent_fields_and_names_missing
                    exact_float_repr (loads_const payload_main_only))
             host_ok "Oslo" "metric" "k3y" "abcd");
      reflexivity || discriminate.
  - apply (proj2 (proj2 (mapper_omits_absent_fields_and_names_missing
                           exact_float_repr (loads_const payload_no_temp))
                    host_ok "k3y" "abcd" (params_of "Oslo" "metric")
                    [("main", JDict [("feels_like", float_20_5)])]
                    eq_refl eq_refl I)
             [("feels_like", float_20_5)]);
      reflexivity.
Defined.

(** C6, as stated, fails: the payload [{"main": null}] has no [main.temp],
    yet [get_weather] raises the generic fetch error of the [TypeError],
    not a missing-field error. *)
Lemma missing_temp_not_always_missing_field :
  json_path ["main"; "temp"] payload_main_null = None /\
  fst (get_weather (loads_const payload_main_null) host_ok "k3y"
                   (params_of "Oslo" "metric")) =
    Raise (Exn Exception
             "Failed to fetch weather: 'NoneType' object is not subscriptable") /\
  ~ is_missing_field_error
      (Exn Exception
         "Failed to fetch weather: 'NoneType' object is not subscriptable").
Proof.
  split; [reflexivity|]. split; [reflexivity|].
  intros [field H]. discriminate H.
Qed.



(** * Further properties of the pipeline *)

(** ** The reader on an arbitrary stream *)

Lemma read_loop_leading (body_stream : InputStream) (acc : list string) :
  fst (fst (read_loop body_stream acc)) = (acc ++ leading_chunks body_stream)%list /\
  snd (read_loop body_stream acc) =
    reads_of (S (List.length (leading_chunks body_stream))).
Proof.
  revert acc. induction body_stream as [|[c|d] rest IH]; intros acc; simpl.
  - rewrite app_nil_r. split; reflexivity.
  - destruct (String.length c =? 0)%nat; simpl.
    + rewrite app_nil_r. split; reflexivity.
    + destruct (IH (acc ++ [c])%list) as [H1 H2].
      rewrite H1, H2, <- app_assoc. split; reflexivity.
  - rewrite app_nil_r. split; reflexivity.
Qed.

Lemma leading_chunks_length (body_stream : InputStream) :
  (List.length (leading_chunks body_stream) <= List.length body_stream)%nat.
Proof.
  induction body_stream as [|[c|d] rest IH]; simpl; try lia.
  destruct (String.length c =? 0)%nat; simpl; lia.
Qed.

(** The body reader on any stream: it issues exactly one
    [blocking_read(8192)] per leading non-empty chunk and one more, never
    more than the stream has reads plus one; with at least one such chunk
    it returns their concatenation however the stream ends - zero-length
    read, error, or closed stream; with none it returns the empty body on
    a zero-length first read and raises otherwise. *)
Theorem read_body_reads_leading_chunks :
  forall body_stream : InputStream,
    let chunks := leading_chunks body_stream in
    snd (read_body body_stream) = reads_of (S (List.length chunks)) /\
    (List.length (snd (read_body body_stream)) <= S (List.length body_stream))%nat /\
    (chunks <> [] -> fst (read_body body_stream) = Ret (bytes_join chunks)) /\
    (chunks = [] ->
       match body_stream with
       | ReadChunk _ :: _ => fst (read_body body_stream) = Ret EmptyString
       | ReadError detail :: _ =>
           fst (read_body body_stream) =
             Raise (Exn Exception ("Failed to read response body: " ++ detail))
       | [] =>
           fst (read_body body_stream) =
             Raise (Exn Exception
                      ("Failed to read response body: " ++ stream_closed))
       end).
Proof.
  intros body_stream chunks.
  destruct (read_loop_leading body_stream []) as [Hc Ht]. simpl in Hc.
  assert (Htrace : snd (read_body body_stream) =
                     reads_of (S (List.length chunks))).
  { unfold read_body.
    destruct (snd (fst (read_loop body_stream [])));
      [destruct (fst (fst (read_loop body_stream [])))|]; exact Ht. }
  split; [exact Htrace|]. split.
  { rewrite Htrace. unfold reads_of. rewrite repeat_length.
    pose proof (leading_chunks_length body_stream). fold chunks in H. lia. }
  split.
  - intro Hne. unfold read_body. rewrite Hc. fold chunks.
    destruct (snd (fst (read_loop body_stream []))); [|reflexivity].
    destruct chunks; [congruence|reflexivity].
  - intro Hnil. unfold read_body. rewrite Hc. fold chunks. rewrite Hnil.
    destruct body_stream as [|[c|d] rest]; simpl; try reflexivity.
    subst chunks. simpl in Hnil.
    destruct (String.length c =? 0)%nat; [reflexivity|discriminate].
Qed.

Lemma read_body_reads_leading_chunks_witness :
  fst (read_body [ReadChunk "ab"; ReadChunk "cd"]) = Ret "abcd".
Proof.
  apply (proj1 (proj2 (proj2 (read_body_reads_leading_chunks
                                [ReadChunk "ab"; ReadChunk "cd"])))).
  discriminate.
Defined.

(** ** The order of the host calls *)

Lemma staged_nil lo hi : staged lo hi [].
Proof. split; [exact I|constructor]. Qed.

Lemma staged_single ev lo hi :
  (lo <= event_rank ev <= hi)%nat -> staged lo hi [ev].
Proof.
  intro H. split.
  - simpl. split; [constructor|exact I].
  - constructor; [exact H|constructor].
Qed.

Lemma staged_weaken lo hi lo' hi' t :
  staged lo hi t -> (lo' <= lo)%nat -> (hi <= hi')%nat -> staged lo' hi' t.
Proof.
  intros [Ho Hw] Hlo Hhi. split; [exact Ho|].
  unfold within in *. rewrite Forall_forall in *. intros ev Hin.
  specialize (Hw ev Hin). lia.
Qed.

Lemma staged_app lo mid hi t1 t2 :
  staged lo mid t1 -> staged (S mid) hi t2 ->
  (lo <= S mid)%nat -> (mid <= hi)%nat ->
  staged lo hi (t1 ++ t2).
Proof.
  intros [Ho1 Hw1] [Ho2 Hw2] Hlo Hhi. split.
  - unfold within in *. rewrite Forall_forall in Hw2.
    induction t1 as [|a t1 IH]; simpl; [exact Ho2|].
    destruct Ho1 as [Ha Ho1]. inversion Hw1 as [|? ? Hra Hw1']; subst.
    split; [|exact (IH Ho1 Hw1')].
    apply Forall_app. split; [exact Ha|].
    rewrite Forall_forall. intros b Hb. left.
    specialize (Hw2 b Hb). lia.
  - unfold within in *. apply Forall_app. split.
    + rewrite Forall_forall in *. intros ev Hin. specialize (Hw1 ev Hin). lia.
    + rewrite Forall_forall in *. intros ev Hin. specialize (Hw2 ev Hin). lia.
Qed.

(** A repeatable call may come before more calls of its own place. *)
Lemma staged_cons_repeat ev n t :
  event_rank ev = n -> repeatable ev = true ->
  staged n n t -> staged n n (ev :: t).
Proof.
  intros Hr Hrep [Ho Hw]. split.
  - simpl. split; [|exact Ho].
    unfold within in Hw. rewrite Forall_forall in *. intros b Hb. right.
    specialize (Hw b Hb). split; [lia|exact Hrep].
  - constructor; [lia|exact Hw].
Qed.

Lemma bind_staged {A B} lo mid hi (m : M A) (k : A -> M B) :
  staged lo mid (snd m) ->
  (forall a, staged (S mid) hi (snd (k a))) ->
  (lo <= S mid)%nat -> (mid <= hi)%nat ->
  staged lo hi (snd (bind m k)).
Proof.
  intros Hm Hk Hlo Hhi. unfold bind. destruct (fst m) as [a|e]; simpl.
  - exact (staged_app _ _ _ _ _ Hm (Hk a) Hlo Hhi).
  - apply (staged_weaken _ _ _ _ _ Hm); lia.
Qed.

Lemma call_result_staged {A} ev (r : host_result A) lo hi :
  (lo <= event_rank ev <= hi)%nat -> staged lo hi (snd (call_result ev r)).
Proof. intro H. rewrite call_result_trace. exact (staged_single _ _ _ H). Qed.

Lemma append_headers_staged h items acc :
  staged 2 2 (snd (append_headers h items acc)).
Proof.
  revert acc. induction items as [|[key value] rest IH]; intros acc; simpl.
  - apply staged_nil.
  - unfold bind.
    destruct (host_fields_append h key (str_encode value)) as [[]|d]; simpl.
    + apply staged_cons_repeat; [reflexivity|reflexivity|apply IH].
    + apply staged_single. simpl. lia.
Qed.

Lemma read_loop_staged body_stream acc :
  staged 15 15 (snd (read_loop body_stream acc)).
Proof.
  revert acc. induction body_stream as [|[c|d] rest IH]; intros acc; simpl.
  - apply staged_single. simpl. lia.
  - destruct (String.length c =? 0)%nat; simpl.
    + apply staged_single. simpl. lia.
    + apply staged_cons_repeat; [reflexivity|reflexivity|apply IH].
  - apply staged_single. simpl. lia.
Qed.

Lemma read_body_trace body_stream :
  snd (read_body body_stream) = snd (read_loop body_stream []).
Proof.
  unfold read_body.
  destruct (snd (fst (read_loop body_stream [])));
    [destruct (fst (fst (read_loop body_stream [])))|]; reflexivity.
Qed.

Ltac staged_step mid :=
  eapply (bind_staged _ mid _);
  [ first [ apply call_result_staged; simpl; lia
          | apply staged_single; simpl; lia
          | idtac ]
  | intros ?
  | lia | lia ].

Lemma request_builder_staged h url headers_dict :
  staged 1 7 (snd (request_builder h url headers_dict)).
Proof.
  unfold request_builder.
  staged_step 1%nat.
  staged_step 2%nat. { apply append_headers_staged. }
  staged_step 3%nat.
  staged_step 4%nat.
  staged_step 5%nat.
  staged_step 6%nat.
  staged_step 7%nat.
  apply staged_nil.
Qed.

Lemma transport_driver_staged h request :
  staged 8 11 (snd (transport_driver h request)).
Proof.
  unfold transport_driver.
  staged_step 8%nat.
  staged_step 9%nat.
  staged_step 10%nat.
  apply staged_single. simpl. lia.
Qed.

Lemma result_unwrapper_staged result :
  staged 12 12 (snd (result_unwrapper result)).
Proof.
  destruct (response_of result) as [r|] eqn:E.
  - rewrite (unwrap_response _ _ E). apply staged_single. simpl. lia.
  - destruct result as [| d | [c | r | r] | r]; try discriminate;
      apply staged_nil.
Qed.

Lemma body_stream_reader_staged r :
  staged 13 15 (snd (body_stream_reader r)).
Proof.
  unfold body_stream_reader.
  staged_step 13%nat.
  staged_step 14%nat.
  rewrite read_body_trace. apply read_loop_staged.
Qed.

Lemma make_http_request_staged h url headers_dict :
  staged 1 15 (snd (make_http_request h url headers_dict)).
Proof.
  unfold make_http_request.
  eapply (bind_staged _ 7%nat _);
    [apply request_builder_staged|intros request|lia|lia].
  eapply (bind_staged _ 11%nat _);
    [apply transport_driver_staged|intros result|lia|lia].
  eapply (bind_staged _ 12%nat _);
    [apply result_unwrapper_staged|intros r|lia|lia].
  apply body_stream_reader_staged.
Qed.

Lemma protocol_order_count p t :
  protocol_order t ->
  (forall ev, p ev = true -> repeatable ev = false) ->
  (forall a b, p a = true -> p b = true -> event_rank a = event_rank b) ->
  (count_events p t <= 1)%nat.
Proof.
  intros Ho Hrep Hrank. unfold count_events.
  induction t as [|a t IH]; simpl; [lia|].
  destruct Ho as [Ha Ho]. specialize (IH Ho).
  destruct (p a) eqn:Hpa; [|exact IH]. simpl.
  assert (Hnone : filter p t = []).
  { rewrite Forall_forall in Ha.
    destruct (filter p t) as [|b l] eqn:Hf; [reflexivity|exfalso].
    assert (Hb : In b (filter p t)) by (rewrite Hf; now left).
    apply filter_In in Hb. destruct Hb as [Hin Hpb].
    destruct (Ha b Hin) as [Hlt|[_ Hr]].
    - rewrite (Hrank a b Hpa Hpb) in Hlt. lia.
    - rewrite (Hrep a Hpa) in Hr. discriminate. }
  rewrite Hnone. simpl. lia.
Qed.

Lemma staged_in lo hi t ev :
  staged lo hi t -> In ev t -> (lo <= event_rank ev <= hi)%nat.
Proof.
  intros [_ Hw] Hin. unfold within in Hw. rewrite Forall_forall in Hw.
  exact (Hw ev Hin).
Qed.

(** The body of a response is consumed only after its status passed the
    check: [consume()] is called only if the transport accepted the
    request and its future resolved to a response with
    [200 <= status < 300]. *)
Theorem body_consumed_only_after_2xx :
  forall (h : Host) (url : string) (headers_dict : list (string * string)),
    In EvConsume (snd (make_http_request h url headers_dict)) ->
    exists request f r,
      host_handle h request = HostOk f /\
      response_of (future_get f) = Some r /\
      200 <= resp_status r < 300.
Proof.
  intros h url headers_dict H. unfold make_http_request in H.
  apply bind_trace_in in H. destruct H as [H|[request [_ H]]].
  { apply (staged_in _ _ _ _ (request_builder_staged _ _ _)) in H.
    simpl in H. lia. }
  apply bind_trace_in in H. destruct H as [H|[result [Hres H]]].
  { apply (staged_in _ _ _ _ (transport_driver_staged _ _)) in H.
    simpl in H. lia. }
  apply transport_driver_get in Hres. destruct Hres as [f [Hf Hget]].
  apply bind_trace_in in H. destruct H as [H|[r [Hr _]]].
  { apply (staged_in _ _ _ _ (result_unwrapper_staged _)) in H.
    simpl in H. lia. }
  exists request, f, r. rewrite Hget.
  pose proof (result_unwrapper_ret _ _ Hr) as Hresp.
  split; [exact Hf|]. split; [exact Hresp|].
  rewrite (unwrap_response _ _ Hresp) in Hr. simpl in Hr.
  destruct (200 <=? resp_status r) eqn:Hlo;
    destruct (resp_status r <? 300) eqn:Hhi; simpl in Hr; try discriminate.
  apply Z.leb_le in Hlo. apply Z.ltb_lt in Hhi. lia.
Qed.

Lemma body_consumed_only_after_2xx_witness :
  exists request f r,
    host_handle host_ok request = HostOk f /\
    response_of (future_get f) = Some r /\
    200 <= resp_status r < 300.
Proof.
  apply (body_consumed_only_after_2xx host_ok
           (request_url "k3y" {| wp_location := "Oslo"; wp_unit := METRIC |})
           WEATHER_HEADERS).
  vm_compute. do 12 right. left. reflexivity.
Defined.

(** ** The request that is submitted *)

Lemma append_headers_ret h items acc headers :
  fst (append_headers h items acc) = Ret headers ->
  headers = (acc ++ encoded_headers items)%list /\
  Forall (fun kv => host_fields_append h (fst kv) (str_encode (snd kv))
                    = HostOk tt) items.
Proof.
  revert acc. induction items as [|[key value] rest IH]; intros acc; simpl.
  - intro H. injection H as <-. rewrite app_nil_r. split; constructor.
  - unfold bind.
    destruct (host_fields_append h key (str_encode value)) as [[]|d] eqn:E;
      simpl; [|discriminate].
    intro H. apply IH in H. destruct H as [-> Hall].
    rewrite <- app_assoc. split; [reflexivity|].
    constructor; [exact E|exact Hall].
Qed.

Lemma request_builder_ret h url headers_dict request :
  fst (request_builder h url headers_dict) = Ret request ->
  request =
    {| req_headers := encoded_headers headers_dict;
       req_method := Some Method_Get;
       req_scheme := Some Scheme_Https;
       req_authority := Some OPENWEATHER_ENDPOINT;
       req_path_with_query :=
         Some (str_remove_all ("https://" ++ OPENWEATHER_ENDPOINT) url) |} /\
  Forall (fun kv => host_fields_append h (fst kv) (str_encode (snd kv))
                    = HostOk tt) headers_dict /\
  host_set_method h Method_Get = HostOk tt /\
  host_set_scheme h Scheme_Https = HostOk tt /\
  host_set_authority h OPENWEATHER_ENDPOINT = HostOk tt /\
  host_set_path_with_query h
    (str_remove_all ("https://" ++ OPENWEATHER_ENDPOINT) url) = HostOk tt.
Proof.
  unfold request_builder, bind, call. cbn [fst snd].
  destruct (append_headers h headers_dict []) as [[headers|e] t] eqn:Ha;
    cbn [fst snd]; [|discriminate].
  assert (Hh : fst (append_headers h headers_dict []) = Ret headers)
    by (rewrite Ha; reflexivity).
  apply append_headers_ret in Hh. destruct Hh as [-> Hall]. simpl app.
  destruct (host_set_method h Method_Get) as [[]|d]; cbn [fst snd call_result];
    [|discriminate].
  destruct (host_set_scheme h Scheme_Https) as [[]|d];
    cbn [fst snd call_result]; [|discriminate].
  destruct (host_set_authority h OPENWEATHER_ENDPOINT) as [[]|d];
    cbn [fst snd call_result]; [|discriminate].
  destruct (host_set_path_with_query h
              (str_remove_all ("https://" ++ OPENWEATHER_ENDPOINT) url))
    as [[]|d]; cbn [fst snd call_result ret]; [|discriminate].
  intro H. injection H as <-. repeat split; auto.
Qed.

(** A request reaches [outgoing_handler.handle] only fully built: every
    header was accepted by the host and is passed with its value UTF-8
    encoded, in the order of the mapping; method, scheme, authority and
    path were all set without error - GET, HTTPS, the endpoint, and the
    URL with the scheme and host removed. *)
Theorem only_complete_requests_are_submitted :
  forall (h : Host) (url : string) (headers_dict : list (string * string))
         (request : OutgoingRequest),
    In (EvHandle request) (snd (make_http_request h url headers_dict)) ->
    request =
      {| req_headers := encoded_headers headers_dict;
         req_method := Some Method_Get;
         req_scheme := Some Scheme_Https;
         req_authority := Some OPENWEATHER_ENDPOINT;
         req_path_with_query :=
           Some (str_remove_all ("https://" ++ OPENWEATHER_ENDPOINT) url) |} /\
    Forall (fun kv => host_fields_append h (fst kv) (str_encode (snd kv))
                      = HostOk tt) headers_dict /\
    host_set_method h Method_Get = HostOk tt /\
    host_set_scheme h Scheme_Https = HostOk tt /\
    host_set_authority h OPENWEATHER_ENDPOINT = HostOk tt /\
    host_set_path_with_query h
      (str_remove_all ("https://" ++ OPENWEATHER_ENDPOINT) url) = HostOk tt.
Proof.
  intros h url headers_dict request H. unfold make_http_request in H.
  apply bind_trace_in in H. destruct H as [H|[request' [Hb H]]].
  { apply (staged_in _ _ _ _ (request_builder_staged _ _ _)) in H.
    simpl in H. lia. }
  assert (request = request').
  { apply bind_trace_in in H. destruct H as [H|[result [_ H]]].
    - unfold transport_driver in H.
      apply bind_trace_in in H. destruct H as [H|[f [_ H]]].
      + rewrite call_result_trace in H. destruct H as [H|[]]. congruence.
      + exfalso. vm_compute in H. intuition discriminate.
    - exfalso. apply bind_trace_in in H. destruct H as [H|[r [_ H]]].
      + apply (staged_in _ _ _ _ (result_unwrapper_staged _)) in H.
        simpl in H. lia.
      + apply (staged_in _ _ _ _ (body_stream_reader_staged _)) in H.
        simpl in H. lia. }
  subst request'. exact (request_builder_ret _ _ _ _ Hb).
Qed.

Lemma only_complete_requests_are_submitted_witness :
  host_set_path_with_query host_ok
    (str_remove_all ("https://" ++ OPENWEATHER_ENDPOINT)
       (request_url "k3y" {| wp_location := "Oslo"; wp_unit := METRIC |}))
    = HostOk tt.
Proof.
  refine (proj2 (proj2 (proj2 (proj2 (proj2
    (only_complete_requests_are_submitted host_ok
       (request_url "k3y" {| wp_location := "Oslo"; wp_unit := METRIC |})
       WEATHER_HEADERS
       {| req_headers := encoded_headers WEATHER_HEADERS;
          req_method := Some Method_Get;
          req_scheme := Some Scheme_Https;
          req_authority := Some OPENWEATHER_ENDPOINT;
          req_path_with_query :=
            Some "/data/2.5/weather?q=Oslo&appid=k3y&units=metric" |}
       _)))))).
  vm_compute. do 7 right. left. reflexivity.
Defined.

(** ** Exceptions of the HTTP stage *)

Lemma bind_not_KeyError {A B} (m : M A) (k : A -> M B) :
  (forall e, fst m = Raise e -> is_KeyError e = false) ->
  (forall a e, fst (k a) = Raise e -> is_KeyError e = false) ->
  forall e, fst (bind m k) = Raise e -> is_KeyError e = false.
Proof.
  intros Hm Hk e. unfold bind. destruct (fst m) as [a|e'] eqn:E; simpl.
  - apply Hk.
  - intro H. injection H as <-. apply Hm. reflexivity.
Qed.

Lemma call_result_not_KeyError {A} ev (r : host_result A) e :
  fst (call_result ev r) = Raise e -> is_KeyError e = false.
Proof. destruct r; simpl; intro H; [discriminate|]. injection H as <-. reflexivity. Qed.

Lemma append_headers_not_KeyError h items acc :
  forall e, fst (append_headers h items acc) = Raise e -> is_KeyError e = false.
Proof.
  revert acc. induction items as [|[key value] rest IH]; intros acc; simpl.
  - discriminate.
  - apply bind_not_KeyError.
    + intros e'. apply call_result_not_KeyError.
    + intros _ e'. apply IH.
Qed.

Lemma make_http_request_not_KeyError h url headers_dict e :
  fst (make_http_request h url headers_dict) = Raise e ->
  is_KeyError e = false.
Proof.
  unfold make_http_request. revert e.
  apply bind_not_KeyError.
  { unfold request_builder.
    repeat first
      [ apply bind_not_KeyError; [|intros ?]
      | intros ?; apply append_headers_not_KeyError
      | intros ?; apply call_result_not_KeyError
      | intros ? ?; simpl; discriminate
      | intros ?; simpl; discriminate ]. }
  intros request. apply bind_not_KeyError.
  { unfold transport_driver.
    repeat first
      [ apply bind_not_KeyError; [|intros ?]
      | intros ?; apply call_result_not_KeyError
      | intros ? ?; simpl; discriminate
      | intros ?; simpl; discriminate ]. }
  intros result. apply bind_not_KeyError.
  { intros e He. destruct (response_of result) as [r|] eqn:E.
    - rewrite (unwrap_response _ _ E) in He. simpl in He.
      destruct (negb _); [|discriminate]. injection He as <-. reflexivity.
    - destruct result as [| d | [c | r | r] | r]; try discriminate;
        simpl in He; injection He as <-; reflexivity. }
  intros r. unfold body_stream_reader.
  apply bind_not_KeyError; [intros e; apply call_result_not_KeyError|].
  intros body. apply bind_not_KeyError;
    [intros e; apply call_result_not_KeyError|].
  intros s e. unfold read_body.
  destruct (snd (fst (read_loop s []))); [|discriminate].
  destruct (fst (fst (read_loop s []))); [|discriminate].
  simpl. intro H. injection H as <-. reflexivity.
Qed.

(** ** The whole call *)

Section CallProperties.
Variable float_repr : Z -> Z -> string.
Variable json_loads : string -> parse_result.

Lemma check_weather_trace h location unit :
  snd (check_weather float_repr json_loads h location unit) = [EvGetEnvironment] \/
  exists api_key,
    snd (check_weather float_repr json_loads h location unit) =
      EvGetEnvironment ::
        snd (make_http_request h (request_url api_key (params_of location unit))
                               WEATHER_HEADERS).
Proof.
  destruct (find_api_key (host_environment h)) as [api_key|] eqn:Hkey.
  - destruct (string_dec api_key EmptyString) as [->|Hne].
    + left. rewrite check_weather_no_key by (right; exact Hkey). reflexivity.
    + right. exists api_key.
      rewrite (check_weather_with_key float_repr json_loads
                 h location unit api_key Hkey Hne).
      cbn [snd]. rewrite get_weather_trace. reflexivity.
  - left. rewrite check_weather_no_key by (left; exact Hkey). reflexivity.
Qed.

(** One call of [check_weather] makes its host calls in the order of the
    protocol - environment, request building, submission, wait, result,
    status, body - where only header appends and blocking reads repeat:
    the environment is read exactly once, as the first call, and at most
    one request is submitted, so nothing is retried. *)
Theorem host_calls_follow_the_protocol :
  forall (h : Host) (location unit : string),
    let trace := snd (check_weather float_repr json_loads h location unit) in
    protocol_order trace /\
    (exists rest, trace = EvGetEnvironment :: rest) /\
    count_events is_get_environment trace = 1%nat /\
    (count_events is_handle trace <= 1)%nat.
Proof.
  intros h location unit trace.
  assert (Hst : staged 0 15 trace /\ exists rest,
                  trace = EvGetEnvironment :: rest /\ staged 1 15 rest).
  { subst trace.
    destruct (check_weather_trace h location unit) as [-> | [api_key ->]].
    - split; [apply staged_single; simpl; lia|].
      exists []. split; [reflexivity|apply staged_nil].
    - split.
      + apply (staged_app 0 0 15 [EvGetEnvironment]);
          [apply staged_single; simpl; lia
          |apply make_http_request_staged|lia|lia].
      + eexists. split; [reflexivity|apply make_http_request_staged]. }
  clearbody trace.
  destruct Hst as [[Ho Hw] [rest [Hrest Hst]]].
  split; [exact Ho|]. split; [exists rest; exact Hrest|]. split.
  - rewrite Hrest. unfold count_events. simpl.
    replace (filter is_get_environment rest) with (@nil event); [reflexivity|].
    symmetry. destruct Hst as [_ Hin]. unfold within in Hin. clear Hrest.
    induction Hin as [|ev l Hev _ IH]; simpl; [reflexivity|].
    destruct ev; simpl in Hev |- *; try exact IH. lia.
  - apply protocol_order_count; [exact Ho| |].
    + intros ev Hev. destruct ev; try discriminate. reflexivity.
    + intros a b Ha Hb. destruct a; try discriminate.
      destruct b; try discriminate. reflexivity.
Qed.

(** A failure of the HTTP stage - a host call that raises, no response,
    a transport or protocol error, a status outside [200, 300), a body
    that cannot be read - and a body that does not parse are never
    reported as a missing field: the answer is [{"error": t}] where [t]
    is the text of the exception behind the prefix
    ["Failed to fetch weather: "] twice, once from [get_weather] and once
    from [check_weather]. *)
Theorem fetch_failures_carry_both_prefixes :
  forall (h : Host) (location unit api_key : string),
    find_api_key (host_environment h) = Some api_key ->
    api_key <> EmptyString ->
    let fetched :=
      fst (make_http_request h (request_url api_key (params_of location unit))
                             WEATHER_HEADERS) in
    let answer := fst (check_weather float_repr json_loads h location unit) in
    (forall e,
       fetched = Raise e ->
       answer =
         Ret (error_json float_repr
                ("Failed to fetch weather: Failed to fetch weather: "
                 ++ exn_str e))) /\
    (forall body msg,
       fetched = Ret body -> json_loads body = ParseError msg ->
       answer =
         Ret (error_json float_repr
                ("Failed to fetch weather: Failed to fetch weather: " ++ msg))).
Proof.
  intros h location unit api_key Hkey Hne fetched answer.
  subst fetched answer.
  rewrite (check_weather_with_key float_repr json_loads
             h location unit api_key Hkey Hne). cbn [fst].
  split.
  - intros e He.
    pose proof (make_http_request_not_KeyError _ _ _ _ He) as Hk.
    unfold get_weather, try_except, bind.
    change [("User-Agent", "Mozilla/5.0 (compatible; noorle/1.0)")]
      with WEATHER_HEADERS.
    rewrite He. cbn [fst snd]. rewrite Hk. reflexivity.
  - intros body msg Hb Hp.
    unfold get_weather, try_except, bind, lift, load_body.
    change [("User-Agent", "Mozilla/5.0 (compatible; noorle/1.0)")]
      with WEATHER_HEADERS.
    rewrite Hb. cbn [fst snd]. rewrite Hp. reflexivity.
Qed.
End CallProperties.

Lemma fetch_failures_carry_both_prefixes_witness :
  fst (check_weather exact_float_repr (loads_const payload_main_only)
         (host_with env_with_key (FutOk (InnerOk (response_with 404 []))))
         "Oslo" "metric") =
    Ret (error_json exact_float_repr
           "Failed to fetch weather: Failed to fetch weather: HTTP error: status code 404").
Proof.
  apply (proj1 (fetch_failures_carry_both_prefixes
                  exact_float_repr (loads_const payload_main_only)
                  (host_with env_with_key
                     (FutOk (InnerOk (response_with 404 []))))
                  "Oslo" "metric" "k3y" eq_refl ltac:(discriminate))
           (Exn Exception "HTTP error: status code 404")).
  reflexivity.
Defined.

(** ** The mapping of a payload, field by field *)

Lemma obind_raise {A B} (o : outcome A) (k : A -> outcome B) (e : exn) :
  obind o k = Raise e ->
  o = Raise e \/ exists a, o = Ret a /\ k a = Raise e.
Proof.
  destruct o as [a|e']; simpl; intro H.
  - right. exists a. auto.
  - left. injection H as ->. reflexivity.
Qed.

Lemma py_contains_not_KeyError needle x e :
  py_contains needle x = Raise e -> is_KeyError e = false.
Proof.
  destruct x; simpl; intro H; try discriminate; injection H as <-; reflexivity.
Qed.

Lemma py_get_not_KeyError x k default e :
  py_get x k default = Raise e -> is_KeyError e = false.
Proof.
  destruct x; simpl; intro H; try (injection H as <-; reflexivity).
  destruct (dict_lookup k d); discriminate.
Qed.

Lemma py_iter_not_KeyError x e :
  py_iter x = Raise e -> is_KeyError e = false.
Proof.
  destruct x; simpl; intro H; try discriminate; injection H as <-; reflexivity.
Qed.

(** A subscript raises [KeyError] only on a [dict] that lacks the key. *)
Lemma py_getitem_KeyError x k e :
  py_getitem x k = Raise e -> is_KeyError e = true ->
  exists d, x = JDict d /\ dict_lookup k d = None /\
            exn_str e = squote ++ k ++ squote.
Proof.
  destruct x; simpl; intros H Hk; try (injection H as <-; discriminate).
  destruct (dict_lookup k d) eqn:E; [discriminate|].
  injection H as <-. exists d. auto.
Qed.

Lemma collect_descriptions_not_KeyError entries e :
  collect_descriptions entries = Raise e -> is_KeyError e = false.
Proof.
  induction entries as [|w entries IH]; simpl; [discriminate|]. intro H.
  apply obind_raise in H. destruct H as [H|[has [_ H]]].
  { exact (py_contains_not_KeyError _ _ _ H). }
  destruct has; [|exact (IH H)].
  apply obind_raise in H. destruct H as [H|[v [_ H]]].
  { exact (py_get_not_KeyError _ _ _ _ H). }
  apply obind_raise in H. destruct H as [H|[ds [_ H]]]; [exact (IH H)|].
  discriminate.
Qed.

Ltac step_obind H a Ha :=
  apply obind_raise in H; destruct H as [H | [a [Ha H]]].

Ltac not_KeyError H Hk :=
  exfalso;
  first [ rewrite (py_contains_not_KeyError _ _ _ H) in Hk
        | rewrite (py_get_not_KeyError _ _ _ _ H) in Hk
        | rewrite (py_iter_not_KeyError _ _ H) in Hk
        | rewrite (collect_descriptions_not_KeyError _ _ H) in Hk ];
  discriminate Hk.

(** The missing-field error, which [get_weather] makes of a [KeyError],
    is raised in three situations only - the payload is an object without
    ["main"], or its ["main"] is an object without ["temp"], or with
    ["temp"] but without ["feels_like"] - and the [KeyError] names that
    key: no optional field and no other malformation of the payload is
    ever reported as a missing field. *)
Theorem missing_field_names_a_required_key :
  forall (weather_data : json) (params : WeatherParams) (e : exn),
    map_weather_data weather_data params = Raise e ->
    is_KeyError e = true ->
    exists d,
      weather_data = JDict d /\
      ((dict_lookup "main" d = None /\ exn_str e = "'main'") \/
       (exists m,
          dict_lookup "main" d = Some (JDict m) /\
          ((dict_lookup "temp" m = None /\ exn_str e = "'temp'") \/
           (dict_lookup "temp" m <> None /\
            dict_lookup "feels_like" m = None /\
            exn_str e = "'feels_like'")))).
Proof.
  intros weather_data params e H Hk. unfold map_weather_data in H.
  step_obind H has Hhas; [not_KeyError H Hk|].
  step_obind H conds Hconds.
  { destruct has; [|discriminate].
    step_obind H entries Hentries.
    - apply py_getitem_KeyError in H; [|exact Hk].
      destruct H as [d [-> [Hnone _]]]. simpl in Hhas. unfold dict_has in Hhas.
      rewrite Hnone in Hhas. discriminate.
    - step_obind H items Hitems; [not_KeyError H Hk|not_KeyError H Hk]. }
  step_obind H location Hlocation; [not_KeyError H Hk|].
  step_obind H main Hmain.
  { apply py_getitem_KeyError in H; [|exact Hk].
    destruct H as [d [-> [Hnone Hstr]]]. exists d. split; [reflexivity|].
    left. split; [exact Hnone|exact Hstr]. }
  assert (Hd : exists d, weather_data = JDict d /\
                         dict_lookup "main" d = Some main).
  { destruct weather_data; simpl in Hmain; try discriminate.
    destruct (dict_lookup "main" d) eqn:E; [|discriminate].
    injection Hmain as <-. exists d. auto. }
  destruct Hd as [d [-> Hlook]]. exists d. split; [reflexivity|]. right.
  step_obind H temperature Htemp.
  { apply py_getitem_KeyError in H; [|exact Hk].
    destruct H as [m [-> [Hnone Hstr]]]. exists m. split; [exact Hlook|].
    left. split; [exact Hnone|exact Hstr]. }
  step_obind H main' Hmain'.
  { rewrite Hmain in H. discriminate. }
  assert (main' = main) by congruence. subst main'.
  step_obind H feels Hfeels.
  { apply py_getitem_KeyError in H; [|exact Hk].
    destruct H as [m [-> [Hnone Hstr]]]. exists m. split; [exact Hlook|].
    right. split; [|split; [exact Hnone|exact Hstr]].
    simpl in Htemp. destruct (dict_lookup "temp" m); discriminate. }
  step_obind H wind Hwind; [not_KeyError H Hk|].
  step_obind H speed Hspeed; [not_KeyError H Hk|].
  step_obind H wind' Hwind'; [not_KeyError H Hk|].
  step_obind H deg Hdeg; [not_KeyError H Hk|].
  step_obind H main'' Hmain''; [not_KeyError H Hk|].
  step_obind H humidity Hhumidity; [not_KeyError H Hk|].
  discriminate.
Qed.

Lemma missing_field_names_a_required_key_witness :
  exists d,
    payload_no_temp = JDict d /\
    ((dict_lookup "main" d = None /\
      exn_str (Exn KeyError "'temp'") = "'main'") \/
     (exists m,
        dict_lookup "main" d = Some (JDict m) /\
        ((dict_lookup "temp" m = None /\
          exn_str (Exn KeyError "'temp'") = "'temp'") \/
         (dict_lookup "temp" m <> None /\
          dict_lookup "feels_like" m = None /\
          exn_str (Exn KeyError "'temp'") = "'feels_like'")))).
Proof.
  apply (missing_field_names_a_required_key payload_no_temp
           (params_of "Oslo" "metric") (Exn KeyError "'temp'"));
    reflexivity.
Defined.

Lemma collect_descriptions_of_objects (entries : list pydict) :
  collect_descriptions (map JDict entries) = Ret (descriptions_of entries).
Proof.
  induction entries as [|d entries IH]; simpl; [reflexivity|].
  unfold dict_has. destruct (dict_lookup "description" d) as [v|]; simpl.
  - rewrite IH. reflexivity.
  - exact IH.
Qed.

(** The mapping of a payload that is an object with a complete
    ["main"] and a ["weather"] entry that is absent or a list of objects:
    the conditions are the descriptions of the entries that have one, in
    order; a missing name gives the empty location; a missing wind
    section, speed, direction or humidity gives [None] for that field;
    but a wind section that is present and not an object (as [null])
    fails the whole mapping with an [AttributeError]. *)
Theorem mapping_of_a_complete_payload :
  forall (d m : pydict) (t f : json) (entries : list pydict)
         (params : WeatherParams),
    (dict_lookup "weather" d = None /\ entries = [] \/
     dict_lookup "weather" d = Some (JList (map JDict entries))) ->
    dict_lookup "main" d = Some (JDict m) ->
    dict_lookup "temp" m = Some t ->
    dict_lookup "feels_like" m = Some f ->
    match dict_lookup "wind" d with
    | None =>
        map_weather_data (JDict d) params =
          Ret (mapped_response d m [] t f entries params)
    | Some (JDict wind) =>
        map_weather_data (JDict d) params =
          Ret (mapped_response d m wind t f entries params)
    | Some v =>
        map_weather_data (JDict d) params =
          Raise (Exn AttributeError
                   (squote ++ type_name v ++ squote
                    ++ " object has no attribute " ++ squote ++ "get"
                    ++ squote))
    end.
Proof.
  intros d m t f entries params Hweather Hmain Htemp Hfeels.
  assert (Hconds :
    (if dict_has "weather" d
     then entries <~ py_getitem (JDict d) "weather" ;;
          items <~ py_iter entries ;;
          collect_descriptions items
     else Ret []) = Ret (descriptions_of entries)).
  { unfold dict_has. cbn [py_getitem].
    destruct Hweather as [[-> ->] | ->]; [reflexivity|].
    cbn [obind py_iter]. apply collect_descriptions_of_objects. }
  unfold map_weather_data, mapped_response, lookup_or.
  cbn [py_contains obind]. rewrite Hconds.
  cbn [obind py_get py_getitem].
  rewrite Hmain. cbn [obind py_getitem py_get]. rewrite Htemp, Hfeels.
  cbn [obind].
  destruct (dict_lookup "name" d); cbn [obind];
    (destruct (dict_lookup "wind" d) as [[]|]; cbn [obind py_get type_name];
     try reflexivity;
     repeat match goal with
       | |- context [dict_lookup ?k ?x] => destruct (dict_lookup k x)
       end; reflexivity).
Qed.

Lemma mapping_of_a_complete_payload_witness :
  let main := [("temp", float_21_0); ("feels_like", float_20_5)] in
  let entries := [[("description", JStr "rain")]; [("id", JInt 500)]] in
  map_weather_data
    (JDict [("weather", JList (map JDict entries)); ("main", JDict main);
            ("wind", JNull)])
    (params_of "Oslo" "metric") =
    Raise (Exn AttributeError "'NoneType' object has no attribute 'get'").
Proof.
  intros main entries.
  exact (mapping_of_a_complete_payload
           [("weather", JList (map JDict entries)); ("main", JDict main);
            ("wind", JNull)]
           main float_21_0 float_20_5 entries (params_of "Oslo" "metric")
           (or_intror eq_refl) eq_refl eq_refl eq_refl).
Defined.

(** ** The serialized response *)

(** The dictionary that [to_dict] builds has no key twice; it always has
    the five keys [location], [temperature], [feels_like_temperature],
    [unit] and [weather_conditions], and no key besides these and
    [wind_speed], [wind_degrees], [humidity]; each of the latter three is
    present exactly when the attribute is not [None], with the value of
    the attribute, so none of them is ever serialized as [null]. *)
Theorem to_dict_keys :
  forall weather : WeatherResponse,
    let result := to_dict weather in
    NoDup (map fst result) /\
    (forall k, In k REQUIRED_KEYS -> dict_has k result = true) /\
    (forall k, dict_has k result = true ->
               In k REQUIRED_KEYS \/ In k OPTIONAL_KEYS) /\
    (forall k v, In k OPTIONAL_KEYS -> dict_lookup k result = Some v ->
                 v <> JNull) /\
    (wr_wind_speed weather <> JNull ->
       dict_lookup "wind_speed" result = Some (wr_wind_speed weather)) /\
    (wr_wind_degrees weather <> JNull ->
       dict_lookup "wind_degrees" result = Some (wr_wind_degrees weather)) /\
    (wr_humidity weather <> JNull ->
       dict_lookup "humidity" result = Some (wr_humidity weather)) /\
    (wr_wind_speed weather = JNull -> dict_lookup "wind_speed" result = None) /\
    (wr_wind_degrees weather = JNull ->
       dict_lookup "wind_degrees" result = None) /\
    (wr_humidity weather = JNull -> dict_lookup "humidity" result = None).
Proof.
  intros [loc temp feels speed deg hum unit conds]. unfold to_dict.
  cbn [wr_location wr_temperature wr_feels_like_temperature wr_wind_speed
       wr_wind_degrees wr_humidity wr_unit wr_weather_conditions].
  assert (Hnone : forall v, is_None v = true -> v = JNull)
    by (intros []; simpl; congruence).
  assert (Hsome : forall v, is_None v = false -> v <> JNull)
    by (intros []; simpl; congruence).
  destruct (is_None speed) eqn:Es; [apply Hnone in Es|apply Hsome in Es];
    (destruct (is_None deg) eqn:Ed; [apply Hnone in Ed|apply Hsome in Ed]);
    (destruct (is_None hum) eqn:Eh; [apply Hnone in Eh|apply Hsome in Eh]);
    cbv zeta; cbn [negb];
    match goal with
    | |- NoDup (map fst ?T) /\ _ =>
        let T' := eval cbn in T in change T with T'
    end;
    (split;
     [repeat first [ apply NoDup_nil
                   | apply NoDup_cons; [simpl; intuition discriminate|] ]|]);
    (split; [intros k Hk; unfold REQUIRED_KEYS in Hk; simpl in Hk;
             intuition (subst; reflexivity)|]);
    (split; [intros k; unfold dict_has, REQUIRED_KEYS, OPTIONAL_KEYS;
             cbn -[String.eqb];
             repeat match goal with
               | |- context [String.eqb ?a k] =>
                   destruct (String.eqb_spec a k); [subst; tauto|]
               end; intro Hk; discriminate Hk|]);
    (split; [intros k v Hk Hv; unfold OPTIONAL_KEYS in Hk; simpl in Hk;
             destruct Hk as [<-|[<-|[<-|[]]]]; cbn in Hv;
             try discriminate; injection Hv as <-; assumption|]);
    repeat split; intros; try reflexivity; congruence.
Qed.

Lemma to_dict_keys_witness :
  dict_lookup "humidity"
    (to_dict {| wr_location := JStr "Oslo";
                wr_temperature := float_21_0;
                wr_feels_like_temperature := float_20_5;
                wr_wind_speed := JNull;
                wr_wind_degrees := JNull;
                wr_humidity := JInt 80;
                wr_unit := UnitStr "metric";
                wr_weather_conditions := [] |}) = Some (JInt 80).
Proof.
  apply (proj1 (proj2 (proj2 (proj2 (proj2 (proj2 (proj2
    (to_dict_keys
       {| wr_location := JStr "Oslo";
          wr_temperature := float_21_0;
          wr_feels_like_temperature := float_20_5;
          wr_wind_speed := JNull;
          wr_wind_degrees := JNull;
          wr_humidity := JInt 80;
          wr_unit := UnitStr "metric";
          wr_weather_conditions := [] |})))))))).
  discriminate.
Defined.

(** ** The URL of the request *)

Lemma str_forallb_app p a b :
  str_forallb p (a ++ b) = str_forallb p a && str_forallb p b.
Proof.
  induction a as [|c a IH]; simpl; [reflexivity|].
  rewrite IH, andb_assoc. reflexivity.
Qed.

Lemma str_forallb_mem p s c :
  str_forallb p s = true -> p c = false -> str_mem c s = false.
Proof.
  induction s as [|a s IH]; simpl; intros Hs Hc; [reflexivity|].
  apply andb_prop in Hs. destruct Hs as [Ha Hs].
  rewrite (IH Hs Hc), orb_false_r.
  destruct (Ascii.eqb_spec a c) as [->|_]; [congruence|reflexivity].
Qed.

Lemma quote_char_quoted (c : ascii) :
  str_forallb quoted_char (quote_char c) = true.
Proof.
  destruct c as [[] [] [] [] [] [] [] []]; reflexivity.
Qed.

Lemma quote_quoted (s : string) : str_forallb quoted_char (quote s) = true.
Proof.
  induction s as [|c s IH]; simpl; [reflexivity|].
  rewrite str_forallb_app, quote_char_quoted, IH. reflexivity.
Qed.

(** The quoted location consists of letters, digits, [_ . - ~ /] and
    [%] only, so it holds no [&], [=], [?], [#], [:] or space and cannot
    add or end a parameter of the query; a location made of unreserved
    characters is passed unchanged. *)
Theorem quoted_location_cannot_alter_the_query :
  forall location : string,
    str_forallb quoted_char (quote location) = true /\
    str_mem "&" (quote location) = false /\
    str_mem "=" (quote location) = false /\
    str_mem "?" (quote location) = false /\
    str_mem "#" (quote location) = false /\
    str_mem ":" (quote location) = false /\
    str_mem " " (quote location) = false /\
    (str_forallb (fun c => quote_unreserved (nat_of_ascii c)) location = true ->
     quote location = location).
Proof.
  intro location. pose proof (quote_quoted location) as H.
  split; [exact H|].
  repeat (split; [apply (str_forallb_mem quoted_char); [exact H|reflexivity]|]).
  induction location as [|c s IH]; simpl; [reflexivity|]. intro Hs.
  apply andb_prop in Hs. destruct Hs as [Hc Hs].
  unfold quote_char. rewrite Hc. simpl.
  rewrite IH; [reflexivity|apply quote_quoted|exact Hs].
Qed.

Lemma quoted_location_cannot_alter_the_query_witness :
  quote "Oslo" = "Oslo".
Proof.
  apply (proj2 (proj2 (proj2 (proj2 (proj2 (proj2 (proj2
    (quoted_location_cannot_alter_the_query "Oslo")))))))).
  reflexivity.
Defined.

Lemma starts_with_mem pat s c :
  starts_with pat s = true -> str_mem c pat = true -> str_mem c s = true.
Proof.
  revert s. induction pat as [|a pat IH]; intros [|b s]; simpl; intros H Hc;
    try discriminate.
  apply andb_prop in H. destruct H as [Hab H].
  apply Ascii.eqb_eq in Hab. subst b.
  destruct (Ascii.eqb a c); [reflexivity|]. simpl in *. exact (IH _ H Hc).
Qed.

(** A text that lacks a character of the pattern has no occurrence of
    it. *)
Lemma remove_all_from_absent pat s c :
  str_mem c pat = true -> str_mem c s = false ->
  remove_all_from pat O s = s.
Proof.
  intros Hc. induction s as [|a s IH]; intro Hs; [reflexivity|].
  cbn [remove_all_from].
  destruct (starts_with pat (String a s)) eqn:E.
  - apply (starts_with_mem _ _ c) in E; [congruence|exact Hc].
  - simpl in Hs. apply orb_false_elim in Hs. destruct Hs as [_ Hs].
    rewrite (IH Hs). reflexivity.
Qed.

Lemma remove_all_split pat s c t :
  str_mem c pat = false ->
  remove_all_from pat O (s ++ String c t) =
    remove_all_from pat O s ++ remove_all_from pat O (String c t).
Proof.
  intro Hc. apply remove_all_from_app; [exact Hc|lia].
Qed.

(** The path and query that is set on the request: the fixed path, the
    quoted location, the API key and the unit.  The key is the only part
    that [replace] can touch: it is sent with every occurrence of
    [https://api.openweathermap.org] cut out, and verbatim when it has no
    colon. *)
Theorem path_with_query_of_the_request :
  forall (api_key : string) (params : WeatherParams),
    str_remove_all ENDPOINT_URL (request_url api_key params) =
      "/data/2.5/weather?q=" ++ quote (wp_location params)
      ++ "&appid=" ++ str_remove_all ENDPOINT_URL api_key
      ++ "&units=" ++ Unit_value (wp_unit params) /\
    (str_mem ":" api_key = false ->
     str_remove_all ENDPOINT_URL (request_url api_key params) =
       "/data/2.5/weather?q=" ++ quote (wp_location params)
       ++ "&appid=" ++ api_key
       ++ "&units=" ++ Unit_value (wp_unit params)).
Proof.
  intros api_key params.
  assert (Hmain :
    str_remove_all ENDPOINT_URL (request_url api_key params) =
      "/data/2.5/weather?q=" ++ quote (wp_location params)
      ++ "&appid=" ++ str_remove_all ENDPOINT_URL api_key
      ++ "&units=" ++ Unit_value (wp_unit params)).
  { unfold request_url, str_remove_all. cbv zeta.
    set (Q := quote (wp_location params)).
    set (U := Unit_value (wp_unit params)).
    set (R := remove_all_from ENDPOINT_URL O).
    change (R ("https://" ++ OPENWEATHER_ENDPOINT ++ "/data/2.5/weather?q="
               ++ Q ++ "&appid=" ++ api_key ++ "&units=" ++ U))
      with (R ((ENDPOINT_URL ++ "/data/2.5/weather")
               ++ String "?" ("q=" ++ Q ++ "&appid=" ++ api_key
                              ++ "&units=" ++ U))).
    unfold R at 1.
    rewrite (remove_all_split ENDPOINT_URL
               (ENDPOINT_URL ++ "/data/2.5/weather") "?"
               ("q=" ++ Q ++ "&appid=" ++ api_key ++ "&units=" ++ U) eq_refl).
    fold R.
    change (R (String "?" ("q=" ++ Q ++ "&appid=" ++ api_key ++ "&units=" ++ U)))
      with (R ("?q" ++ String "=" (Q ++ "&appid=" ++ api_key ++ "&units=" ++ U))).
    unfold R at 2.
    rewrite (remove_all_split ENDPOINT_URL "?q" "="
               (Q ++ "&appid=" ++ api_key ++ "&units=" ++ U) eq_refl).
    fold R.
    change (R (String "=" (Q ++ "&appid=" ++ api_key ++ "&units=" ++ U)))
      with (R (("=" ++ Q)
               ++ String "&" ("appid=" ++ api_key ++ "&units=" ++ U))).
    unfold R at 3.
    rewrite (remove_all_split ENDPOINT_URL ("=" ++ Q) "&"
               ("appid=" ++ api_key ++ "&units=" ++ U) eq_refl).
    fold R.
    change (R (String "&" ("appid=" ++ api_key ++ "&units=" ++ U)))
      with (R ("&appid" ++ String "=" (api_key ++ "&units=" ++ U))).
    unfold R at 4.
    rewrite (remove_all_split ENDPOINT_URL "&appid" "="
               (api_key ++ "&units=" ++ U) eq_refl).
    fold R.
    change (R (String "=" (api_key ++ "&units=" ++ U)))
      with (R (("=" ++ api_key) ++ String "&" ("units=" ++ U))).
    unfold R at 5.
    rewrite (remove_all_split ENDPOINT_URL ("=" ++ api_key) "&"
               ("units=" ++ U) eq_refl).
    fold R.
    assert (HQ : R ("=" ++ Q) = "=" ++ Q).
    { apply (remove_all_from_absent ENDPOINT_URL ("=" ++ Q) ":");
        [reflexivity|].
      simpl. apply (str_forallb_mem quoted_char);
        [apply quote_quoted|reflexivity]. }
    assert (HU : R (String "&" ("units=" ++ U)) = "&units=" ++ U)
      by (subst U; destruct (wp_unit params); reflexivity).
    rewrite HQ, HU.
    change (R (ENDPOINT_URL ++ "/data/2.5/weather")) with "/data/2.5/weather".
    change (R "?q") with "?q".
    change (R "&appid") with "&appid".
    change (R ("=" ++ api_key)) with (String "=" (R api_key)).
    rewrite !str_app_assoc. reflexivity. }
  split; [exact Hmain|].
  intro Hkey. rewrite Hmain. unfold str_remove_all.
  rewrite (remove_all_from_absent ENDPOINT_URL api_key ":");
    [reflexivity|reflexivity|exact Hkey].
Qed.

Lemma path_with_query_of_the_request_witness :
  str_remove_all ENDPOINT_URL
    (request_url "k3y" {| wp_location := "New York"; wp_unit := IMPERIAL |}) =
    "/data/2.5/weather?q=New%20York&appid=k3y&units=imperial".
Proof.
  apply (proj2 (path_with_query_of_the_request
                  "k3y" {| wp_location := "New York"; wp_unit := IMPERIAL |})).
  reflexivity.
Defined.

(** ** The unit *)

Lemma lower_char_idempotent (c : ascii) :
  lower_char (lower_char c) = lower_char c.
Proof.
  destruct c as [[] [] [] [] [] [] [] []]; reflexivity.
Qed.

Lemma str_lower_idempotent (s : string) :
  str_lower (str_lower s) = str_lower s.
Proof.
  induction s as [|c s IH]; simpl; [reflexivity|].
  rewrite lower_char_idempotent, IH. reflexivity.
Qed.

(** The unit put in effect depends on the requested text only through
    its lower-casing, so any casing of a name gives the same unit; the
    value of either [Unit] member parses back to the member, hence
    requesting the unit that a response reports gives that unit again. *)
Theorem unit_names_round_trip :
  (forall u : Unit, parse_unit (Unit_value u) = u) /\
  (forall a b : string,
     str_lower a = str_lower b -> parse_unit a = parse_unit b) /\
  (forall unit : string, parse_unit (str_lower unit) = parse_unit unit) /\
  (forall unit : string,
     effective_unit (effective_unit unit) = effective_unit unit).
Proof.
  split; [intros []; reflexivity|].
  split; [intros a b H; unfold parse_unit; rewrite H; reflexivity|].
  split.
  - intro unit. unfold parse_unit. rewrite str_lower_idempotent. reflexivity.
  - intro unit. unfold effective_unit. destruct (parse_unit unit); reflexivity.
Qed.

Lemma unit_names_round_trip_witness :
  parse_unit "ImPeRiAl" = parse_unit "imperial".
Proof.
  apply (proj1 (proj2 unit_names_round_trip) "ImPeRiAl" "imperial").
  reflexivity.
Defined.

(** * Sandbox plugin *)

Lemma str_mem_app_stop c a x : str_mem c (a ++ String c x) = true.
Proof.
  induction a as [|b a IH]; simpl.
  - rewrite Ascii.eqb_refl. reflexivity.
  - rewrite IH. apply orb_true_r.
Qed.

(** Two texts that agree split at the same first occurrence of [c]. *)
Lemma app_stop_unique c a b x y :
  str_mem c a = false -> str_mem c b = false ->
  a ++ String c x = b ++ String c y -> a = b /\ x = y.
Proof.
  revert b. induction a as [|p a IH]; intros [|q b] Ha Hb H; simpl in *.
  - injection H as <-. auto.
  - injection H as <- _. rewrite Ascii.eqb_refl in Hb. discriminate.
  - injection H as -> _. rewrite Ascii.eqb_refl in Ha. discriminate.
  - injection H as <- H.
    apply orb_false_elim in Ha. apply orb_false_elim in Hb.
    destruct (IH b (proj2 Ha) (proj2 Hb) H) as [-> ->]. auto.
Qed.

Lemma append_longer (a b : string) : b <> EmptyString -> a ++ b <> a.
Proof.
  intros Hb H. assert (L : String.length (a ++ b) = String.length a)
    by (rewrite H; reflexivity).
  assert (Happ : forall u v, String.length (u ++ v) =
                             (String.length u + String.length v)%nat).
  { induction u as [|c u IH]; intros v; simpl; [reflexivity|].
    rewrite IH. reflexivity. }
  rewrite Happ in L. destruct b; [congruence|simpl in L; lia].
Qed.

(** The text that [handle_exception] puts in the [Err] starts with the
    name of the exception type, and is that name alone exactly when the
    message is empty (no trailing colon).  For type names without a
    colon - every Python identifier - the text determines both the type
    name and the message: different exceptions never give the same
    error. *)
Theorem handle_exception_keeps_type_and_message :
  (forall e : Sandbox.py_exception,
     starts_with (Sandbox.exc_type_name e) (Sandbox.handle_exception e) = true /\
     (Sandbox.handle_exception e = Sandbox.exc_type_name e <->
      Sandbox.exc_message e = EmptyString)) /\
  (forall e1 e2 : Sandbox.py_exception,
     str_mem ":" (Sandbox.exc_type_name e1) = false ->
     str_mem ":" (Sandbox.exc_type_name e2) = false ->
     Sandbox.handle_exception e1 = Sandbox.handle_exception e2 ->
     e1 = e2).
Proof.
  split.
  - intros [name msg]. unfold Sandbox.handle_exception. simpl.
    destruct (String.eqb_spec msg EmptyString) as [->|Hne].
    + split; [|tauto].
      clear. induction name as [|c s IH]; simpl; [reflexivity|].
      rewrite Ascii.eqb_refl. exact IH.
    + split.
      * clear. induction name as [|c s IH]; simpl; [reflexivity|].
        rewrite Ascii.eqb_refl. exact IH.
      * split; [|contradiction]. intro H. exfalso.
        apply (append_longer name (": " ++ msg)); [discriminate|exact H].
  - intros [n1 m1] [n2 m2]. unfold Sandbox.handle_exception. simpl.
    intros H1 H2.
    destruct (String.eqb_spec m1 EmptyString) as [->|Hm1];
      destruct (String.eqb_spec m2 EmptyString) as [->|Hm2]; intro H.
    + congruence.
    + exfalso. rewrite H in H1.
      change (n2 ++ ": " ++ m2) with (n2 ++ String ":" (" " ++ m2)) in H1.
      rewrite str_mem_app_stop in H1. discriminate.
    + exfalso. rewrite <- H in H2.
      change (n1 ++ ": " ++ m1) with (n1 ++ String ":" (" " ++ m1)) in H2.
      rewrite str_mem_app_stop in H2. discriminate.
    + change (n1 ++ String ":" (" " ++ m1) = n2 ++ String ":" (" " ++ m2)) in H.
      apply app_stop_unique in H; [|assumption|assumption].
      destruct H as [-> H]. injection H as ->. reflexivity.
Qed.

Lemma handle_exception_keeps_type_and_message_witness :
  {| Sandbox.exc_type_name := "ZeroDivisionError";
     Sandbox.exc_message := "division by zero" |} =
  {| Sandbox.exc_type_name := "ZeroDivisionError";
     Sandbox.exc_message := "division by zero" |}.
Proof.
  apply (proj2 handle_exception_keeps_type_and_message); reflexivity.
Defined.

(** * What a returned body means *)

Lemma bind_ret_inv {A B} (m : M A) (k : A -> M B) (b : B) :
  fst (bind m k) = Ret b -> exists a, fst m = Ret a /\ fst (k a) = Ret b.
Proof.
  unfold bind. destruct (fst m) as [a|e]; simpl; intro H; [|discriminate].
  exists a. auto.
Qed.

Lemma call_result_ret_inv {A} ev (r : host_result A) (a : A) :
  fst (call_result ev r) = Ret a -> r = HostOk a.
Proof. destruct r; simpl; intro H; [congruence|discriminate]. Qed.

Lemma read_body_ret body_stream body :
  fst (read_body body_stream) = Ret body ->
  body = bytes_join (leading_chunks body_stream) /\
  (leading_chunks body_stream <> [] \/
   exists rest, body_stream = ReadChunk EmptyString :: rest).
Proof.
  intro H. unfold read_body in H.
  destruct (read_loop_leading body_stream []) as [Hc _]. simpl in Hc.
  rewrite Hc in H.
  destruct (leading_chunks body_stream) as [|c cs] eqn:El.
  - destruct body_stream as [|[c|d] rest]; simpl in H; try discriminate.
    simpl in El.
    destruct (String.length c =? 0)%nat eqn:Ec; [|discriminate].
    apply str_length_zero in Ec. subst c. simpl in H.
    injection H as <-. split; [reflexivity|]. right. eexists. reflexivity.
  - assert (Hb : body = bytes_join (c :: cs)).
    { destruct (snd (fst (read_loop body_stream []))); cbn [fst] in H;
        injection H as <-; reflexivity. }
    split; [exact Hb|]. left. discriminate.
Qed.

(** When [make_http_request] returns a body, the host accepted every
    request-building call and the submission, the future resolved to a
    response with [200 <= status < 300] whose body and stream could be
    obtained, and the body returned is the concatenation of the leading
    non-empty chunks of that stream - at least one chunk, or else the
    stream began with a zero-length read. *)
Theorem returned_body_comes_from_a_2xx_response :
  forall (h : Host) (url : string) (headers_dict : list (string * string))
         (body : string),
    fst (make_http_request h url headers_dict) = Ret body ->
    exists request f r incoming_body stream,
      fst (request_builder h url headers_dict) = Ret request /\
      host_handle h request = HostOk f /\
      response_of (future_get f) = Some r /\
      200 <= resp_status r < 300 /\
      resp_consume r = HostOk incoming_body /\
      body_stream incoming_body = HostOk stream /\
      body = bytes_join (leading_chunks stream) /\
      (leading_chunks stream <> [] \/
       exists rest, stream = ReadChunk EmptyString :: rest).
Proof.
  intros h url headers_dict body H. unfold make_http_request in H.
  apply bind_ret_inv in H. destruct H as [request [Hreq H]].
  apply bind_ret_inv in H. destruct H as [result [Hres H]].
  apply bind_ret_inv in H. destruct H as [r [Hr H]].
  apply transport_driver_get in Hres. destruct Hres as [f [Hf Hget]].
  pose proof (result_unwrapper_ret _ _ Hr) as Hresp.
  assert (Hstatus : 200 <= resp_status r < 300).
  { rewrite (unwrap_response _ _ Hresp) in Hr. simpl in Hr.
    destruct (200 <=? resp_status r) eqn:Hlo;
      destruct (resp_status r <? 300) eqn:Hhi; simpl in Hr; try discriminate.
    apply Z.leb_le in Hlo. apply Z.ltb_lt in Hhi. lia. }
  unfold body_stream_reader in H.
  apply bind_ret_inv in H. destruct H as [incoming_body [Hbody H]].
  apply bind_ret_inv in H. destruct H as [stream [Hstream H]].
  apply call_result_ret_inv in Hbody. apply call_result_ret_inv in Hstream.
  apply read_body_ret in H. destruct H as [Hjoin Hnonempty].
  exists request, f, r, incoming_body, stream. subst result.
  repeat (split; [assumption|]). assumption.
Qed.

Lemma returned_body_comes_from_a_2xx_response_witness :
  exists request f r incoming_body stream,
    fst (request_builder host_ok
           (request_url "k3y" (params_of "Oslo" "metric")) WEATHER_HEADERS)
      = Ret request /\
    host_handle host_ok request = HostOk f /\
    response_of (future_get f) = Some r /\
    200 <= resp_status r < 300 /\
    resp_consume r = HostOk incoming_body /\
    body_stream incoming_body = HostOk stream /\
    "abcd" = bytes_join (leading_chunks stream) /\
    (leading_chunks stream <> [] \/
     exists rest, stream = ReadChunk EmptyString :: rest).
Proof.
  apply (returned_body_comes_from_a_2xx_response host_ok
           (request_url "k3y" (params_of "Oslo" "metric")) WEATHER_HEADERS).
  reflexivity.
Defined.

(** * Bundled modules *)

Section PackageProperties.
Import AdditionalModules.
Variable module : Type.
Variable import_module : string -> import_result module.

Lemma ns_lookup_del_same name (g : namespace module) :
  ns_lookup name (ns_del name g) = None.
Proof.
  induction g as [|[k v] g IH]; simpl; [reflexivity|].
  destruct (String.eqb k name) eqn:E; [exact IH|]. simpl. rewrite E. exact IH.
Qed.

Lemma ns_lookup_del_other name k (g : namespace module) :
  k <> name -> ns_lookup name (ns_del k g) = ns_lookup name g.
Proof.
  intro Hne. induction g as [|[k' v] g IH]; simpl; [reflexivity|].
  destruct (String.eqb_spec k' k) as [->|Hk].
  - destruct (String.eqb_spec k name); [contradiction|exact IH].
  - simpl. destruct (String.eqb k' name); [reflexivity|exact IH].
Qed.

Lemma ns_lookup_set_same name v (g : namespace module) :
  ns_lookup name (ns_set name v g) = Some v.
Proof. unfold ns_set. simpl. rewrite String.eqb_refl. reflexivity. Qed.

Lemma ns_lookup_set_other name k v (g : namespace module) :
  k <> name -> ns_lookup name (ns_set k v g) = ns_lookup name g.
Proof.
  intro Hne. unfold ns_set. simpl.
  destruct (String.eqb_spec k name); [contradiction|].
  apply ns_lookup_del_other. exact Hne.
Qed.

Lemma ns_has_set_same name v (g : namespace module) :
  ns_has name (ns_set name v g) = true.
Proof. unfold ns_has. rewrite ns_lookup_set_same. reflexivity. Qed.

Lemma ns_has_set_other name k v (g : namespace module) :
  k <> name -> ns_has name (ns_set k v g) = ns_has name g.
Proof. intro H. unfold ns_has. rewrite ns_lookup_set_other by exact H. reflexivity. Qed.

Lemma ns_has_del_other name k (g : namespace module) :
  k <> name -> ns_has name (ns_del k g) = ns_has name g.
Proof. intro H. unfold ns_has. rewrite ns_lookup_del_other by exact H. reflexivity. Qed.

(** What one pass of the loop body does to the namespace, for a file
    that the loop imports, when nothing shadows the builtins. *)
Lemma import_one_spec name (st : state module) :
  builtins_visible (globals st) ->
  ~ In name BUILTINS_USED ->
  (forall t m, import_module name <> ImportInterrupted t m) ->
  exists st',
    import_one import_module name st = Done st' /\
    builtins_visible (globals st') /\
    stderr st' =
      List.app (stderr st)
        match import_module name with
        | ImportFailed _ message =>
            ["Warning: Failed to import " ++ name ++ ": " ++ message ++ newline]
        | _ => []
        end /\
    (forall n, n <> "e" -> ns_has n (globals st) = true ->
               ns_has n (globals st') = true) /\
    (forall n, n <> "e" ->
       ns_lookup n (globals st') =
         if String.eqb name n
         then match import_module name with
              | Imported m => Some (VModule m)
              | _ => ns_lookup n (globals st)
              end
         else ns_lookup n (globals st)).
Proof.
  intros Hvis Hname Hint. unfold import_one.
  assert (Hg : ns_lookup "globals" (globals st) = None)
    by (apply Hvis; simpl; auto).
  assert (Hp : ns_lookup "print" (globals st) = None)
    by (apply Hvis; simpl; auto).
  assert (He : ns_lookup "Exception" (globals st) = None)
    by (apply Hvis; simpl; auto).
  destruct (import_module name) as [m|t msg|t msg] eqn:Eimp.
  - rewrite Hg. eexists. split; [reflexivity|]. cbn [globals stderr].
    split; [|split; [|split]].
    + intros b Hb. destruct (String.eqb_spec name b) as [->|Hnb];
        [contradiction|].
      rewrite ns_lookup_set_other by exact Hnb. apply Hvis. exact Hb.
    + rewrite app_nil_r. reflexivity.
    + intros n _ Hn. destruct (String.eqb_spec name n) as [->|Hnb].
      * apply ns_has_set_same.
      * rewrite ns_has_set_other by exact Hnb. exact Hn.
    + intros n _. destruct (String.eqb_spec name n) as [->|Hnb].
      * apply ns_lookup_set_same.
      * apply ns_lookup_set_other. exact Hnb.
  - unfold except_handler. rewrite He.
    rewrite ns_lookup_set_other by discriminate. rewrite Hp.
    eexists. split; [reflexivity|]. cbn [globals stderr].
    split; [|split; [|split]].
    + intros b Hb.
      assert (Hbe : "e" <> b)
        by (simpl in Hb; intuition (subst; discriminate)).
      rewrite ns_lookup_del_other by exact Hbe.
      rewrite ns_lookup_set_other by exact Hbe. apply Hvis. exact Hb.
    + reflexivity.
    + intros n Hn Hhas.
      rewrite ns_has_del_other by congruence.
      rewrite ns_has_set_other by congruence. exact Hhas.
    + intros n Hn.
      rewrite ns_lookup_del_other by congruence.
      rewrite ns_lookup_set_other by congruence.
      destruct (String.eqb name n); reflexivity.
  - exfalso. exact (Hint t msg eq_refl).
Qed.

Lemma builtins_visible_set name v (g : namespace module) :
  ~ In name BUILTINS_USED -> builtins_visible g ->
  builtins_visible (ns_set name v g).
Proof.
  intros Hname Hvis b Hb.
  destruct (String.eqb_spec name b) as [->|Hnb]; [contradiction|].
  rewrite ns_lookup_set_other by exact Hnb. apply Hvis. exact Hb.
Qed.

Lemma not_builtin_filename : ~ In "_filename" BUILTINS_USED.
Proof. simpl. intuition discriminate. Qed.

Lemma not_builtin_module_name : ~ In "_module_name" BUILTINS_USED.
Proof. simpl. intuition discriminate. Qed.

(** The loop, when nothing shadows the builtins it reads. *)
Lemma import_all_spec (listing : list string) :
  forall st : state module,
    undisturbed import_module listing ->
    builtins_visible (globals st) ->
    exists st',
      import_all import_module listing st = Done st' /\
      builtins_visible (globals st') /\
      stderr st' = (stderr st ++ warnings import_module listing)%list /\
      (forall n, n <> "e" -> ns_has n (globals st) = true ->
                 ns_has n (globals st') = true) /\
      (listing <> [] -> ns_has "_filename" (globals st') = true) /\
      (existsb qualifies listing = true ->
       ns_has "_module_name" (globals st') = true) /\
      (forall n, ~ In n TEMPORARIES ->
         ns_lookup n (globals st') =
           if is_module_of listing n
           then match import_module n with
                | Imported m => Some (VModule m)
                | _ => ns_lookup n (globals st)
                end
           else ns_lookup n (globals st)).
Proof.
  induction listing as [|f rest IH]; intros st Hund Hvis.
  - exists st. simpl. rewrite app_nil_r.
    repeat split; auto; try congruence; discriminate.
  - assert (Hrest : undisturbed import_module rest)
      by (intros f' Hin; apply Hund; now right).
    cbn [import_all]. fold (qualifies f).
    set (st1 := {| globals := ns_set "_filename" (VStr f) (globals st);
                   stderr := stderr st |}).
    assert (Hvis1 : builtins_visible (globals st1))
      by (apply builtins_visible_set; [apply not_builtin_filename|exact Hvis]).
    destruct (qualifies f) eqn:Hq.
    + set (name := drop_last3 f).
      set (st2 := {| globals := ns_set "_module_name" (VStr name) (globals st1);
                     stderr := stderr st1 |}).
      assert (Hvis2 : builtins_visible (globals st2))
        by (apply builtins_visible_set;
            [apply not_builtin_module_name|exact Hvis1]).
      destruct (Hund f (or_introl eq_refl) Hq) as [Hname Hint].
      fold name in Hname, Hint.
      destruct (import_one_spec name st2 Hvis2 Hname Hint)
        as [st3 [Hone [Hvis3 [Herr3 [Hhas3 Hlook3]]]]].
      rewrite Hone.
      destruct (IH st3 Hrest Hvis3)
        as [st' [Hall [Hvis' [Herr' [Hhas' [_ [_ Hlook']]]]]]].
      exists st'. split; [exact Hall|]. split; [exact Hvis'|].
      split; [|split; [|split; [|split]]].
      * rewrite Herr', Herr3. cbn [stderr st2 st1 warnings]. rewrite Hq.
        fold name. rewrite <- app_assoc.
        destruct (import_module name); reflexivity.
      * intros n Hne Hn. apply Hhas'; [exact Hne|]. apply Hhas3; [exact Hne|].
        cbn [globals st2 st1].
        destruct (String.eqb_spec "_module_name" n) as [<-|H2];
          [apply ns_has_set_same|].
        rewrite ns_has_set_other by exact H2.
        destruct (String.eqb_spec "_filename" n) as [<-|H1];
          [apply ns_has_set_same|].
        rewrite ns_has_set_other by exact H1. exact Hn.
      * intros _. apply Hhas'; [discriminate|]. apply Hhas3; [discriminate|].
        cbn [globals st2 st1]. rewrite ns_has_set_other by discriminate.
        apply ns_has_set_same.
      * intros _. apply Hhas'; [discriminate|]. apply Hhas3; [discriminate|].
        cbn [globals st2]. apply ns_has_set_same.
      * intros n Hn.
        assert (Hn1 : "_filename" <> n /\ "_module_name" <> n /\ n <> "e")
          by (simpl in Hn; repeat split; intro; subst; tauto).
        destruct Hn1 as [Hf [Hm He]].
        rewrite (Hlook' n Hn), (Hlook3 n He).
        cbn [globals st2 st1].
        rewrite (ns_lookup_set_other n "_module_name") by exact Hm.
        rewrite (ns_lookup_set_other n "_filename") by exact Hf.
        change (is_module_of (f :: rest) n)
          with ((qualifies f && String.eqb (drop_last3 f) n)
                || is_module_of rest n).
        rewrite Hq. fold name. cbn [andb].
        destruct (String.eqb_spec name n) as [->|Hnn]; cbn [orb].
        -- destruct (is_module_of rest n); destruct (import_module n);
             reflexivity.
        -- reflexivity.
    + destruct (IH st1 Hrest Hvis1)
        as [st' [Hall [Hvis' [Herr' [Hhas' [_ [Hmod' Hlook']]]]]]].
      exists st'. split; [exact Hall|]. split; [exact Hvis'|].
      split; [|split; [|split; [|split]]].
      * rewrite Herr'. cbn [warnings stderr st1]. rewrite Hq. reflexivity.
      * intros n Hne Hn. apply Hhas'; [exact Hne|]. cbn [globals st1].
        destruct (String.eqb_spec "_filename" n) as [<-|H1];
          [apply ns_has_set_same|].
        rewrite ns_has_set_other by exact H1. exact Hn.
      * intros _. apply Hhas'; [discriminate|]. cbn [globals st1].
        apply ns_has_set_same.
      * cbn [existsb]. rewrite Hq. cbn [orb]. exact Hmod'.
      * intros n Hn.
        assert (Hf : "_filename" <> n)
          by (simpl in Hn; intro; subst; tauto).
        rewrite (Hlook' n Hn). cbn [globals st1].
        rewrite (ns_lookup_set_other n "_filename") by exact Hf.
        change (is_module_of (f :: rest) n)
          with ((qualifies f && String.eqb (drop_last3 f) n)
                || is_module_of rest n).
        rewrite Hq. reflexivity.
Qed.

(** The loop on a listing without any file to import. *)
Lemma import_all_nothing (listing : list string) :
  forall st : state module,
    existsb qualifies listing = false ->
    exists st',
      import_all import_module listing st = Done st' /\
      (forall n, n <> "_filename" ->
                 ns_lookup n (globals st') = ns_lookup n (globals st)) /\
      (listing <> [] -> ns_has "_filename" (globals st') = true) /\
      (listing = [] -> st' = st).
Proof.
  induction listing as [|f rest IH]; intros st Hnone.
  - exists st. repeat split; auto; congruence.
  - cbn [existsb] in Hnone. apply orb_false_elim in Hnone.
    destruct Hnone as [Hq Hrest].
    cbn [import_all]. fold (qualifies f). rewrite Hq.
    destruct (IH {| globals := ns_set "_filename" (VStr f) (globals st);
                    stderr := stderr st |} Hrest)
      as [st' [Hall [Hlook [Hhas Hnil]]]].
    exists st'. split; [exact Hall|]. split; [|split].
    + intros n Hn. rewrite (Hlook n Hn). cbn [globals].
      apply ns_lookup_set_other. congruence.
    + intros _. destruct rest as [|f' rest'].
      * rewrite (Hnil eq_refl). cbn [globals]. apply ns_has_set_same.
      * apply Hhas. discriminate.
    + discriminate.
Qed.

(** A directory with no module file besides [__init__.py] makes the
    package body fail: the loop never binds [_module_name] - nor
    [_filename], when the listing is empty - and the closing [del]
    raises [NameError]. *)
Theorem package_without_modules_fails :
  forall (module_dir : string) (listing : list string)
         (g0 : namespace module),
    existsb qualifies listing = false ->
    ns_lookup "_filename" g0 = None ->
    ns_lookup "_module_name" g0 = None ->
    package_body import_module module_dir listing g0 =
      Raised "NameError"
        match listing with
        | [] => "name '_filename' is not defined"
        | _ :: _ => "name '_module_name' is not defined"
        end.
Proof.
  intros module_dir listing g0 Hnone Hf Hm. unfold package_body.
  destruct (import_all_nothing listing
              {| globals := ns_set "_module_dir" (VStr module_dir) g0;
                 stderr := [] |} Hnone)
    as [st' [-> [Hlook [Hhas Hnil]]]].
  cbn [globals] in Hlook.
  assert (Hdir : ns_has "_module_dir" (globals st') = true).
  { unfold ns_has. rewrite Hlook by discriminate.
    rewrite ns_lookup_set_same. reflexivity. }
  unfold del_name at 1. rewrite Hdir.
  destruct listing as [|f rest].
  - rewrite (Hnil eq_refl). cbn [globals]. unfold del_name, ns_has.
    rewrite ns_lookup_del_other by discriminate.
    rewrite ns_lookup_set_other by discriminate. rewrite Hf. reflexivity.
  - unfold del_name at 1.
    rewrite ns_has_del_other by discriminate.
    rewrite Hhas by discriminate.
    unfold del_name, ns_has.
    rewrite !ns_lookup_del_other by discriminate.
    rewrite Hlook by discriminate.
    rewrite ns_lookup_set_other by discriminate. rewrite Hm. reflexivity.
Qed.

Lemma package_body_spec (module_dir : string) (listing : list string)
    (g0 : namespace module) :
  undisturbed import_module listing ->
  builtins_visible g0 ->
  existsb qualifies listing = true ->
  exists st,
    package_body import_module module_dir listing g0 = Done st /\
    stderr st = warnings import_module listing /\
    (forall n, In n ["_module_dir"; "_filename"; "_module_name"] ->
               ns_lookup n (globals st) = None) /\
    (forall n, ~ In n TEMPORARIES ->
       ns_lookup n (globals st) =
         if is_module_of listing n
         then match import_module n with
              | Imported m => Some (VModule m)
              | _ => ns_lookup n g0
              end
         else ns_lookup n g0).
Proof.
  intros Hund Hvis Hsome. unfold package_body.
  assert (Hvis0 : builtins_visible
                    (ns_set "_module_dir" (VStr module_dir) g0)).
  { apply builtins_visible_set; [simpl; intuition discriminate|exact Hvis]. }
  destruct (import_all_spec listing
              {| globals := ns_set "_module_dir" (VStr module_dir) g0;
                 stderr := [] |} Hund Hvis0)
    as [st' [-> [_ [Herr [Hhas [Hfile [Hmod Hlook]]]]]]].
  cbn [globals stderr] in *.
  assert (Hne : listing <> [])
    by (intros ->; discriminate Hsome).
  unfold del_name at 1.
  rewrite (Hhas "_module_dir") by (discriminate || apply ns_has_set_same).
  unfold del_name at 1. rewrite ns_has_del_other by discriminate.
  rewrite (Hfile Hne).
  unfold del_name. rewrite !ns_has_del_other by discriminate.
  rewrite (Hmod Hsome).
  eexists. split; [reflexivity|]. cbn [globals stderr].
  split; [exact Herr|]. split.
  - intros n [<-|[<-|[<-|[]]]].
    + rewrite !ns_lookup_del_other by discriminate. apply ns_lookup_del_same.
    + rewrite ns_lookup_del_other by discriminate. apply ns_lookup_del_same.
    + apply ns_lookup_del_same.
  - intros n Hn.
    assert (Hn' : "_module_dir" <> n /\ "_filename" <> n /\ "_module_name" <> n)
      by (simpl in Hn; repeat split; intro; subst; tauto).
    destruct Hn' as [H1 [H2 H3]].
    rewrite !ns_lookup_del_other by assumption.
    rewrite (Hlook n Hn). rewrite ns_lookup_set_other by exact H1.
    reflexivity.
Qed.

(** When the listing has a module file, nothing shadows the builtins the
    loop reads and no import is interrupted, the package body completes.
    Afterwards every name other than the package's own ([_module_dir],
    [_filename], [_module_name], [e]) is bound to the imported module if
    it is the module name of a listed file whose import succeeded, and
    is as before otherwise; and the three temporaries are unbound - also
    when a bundled module has one of these names, which is thereby
    lost. *)
Theorem bundled_modules_are_bound :
  forall (module_dir : string) (listing : list string)
         (g0 : namespace module),
    undisturbed import_module listing ->
    builtins_visible g0 ->
    existsb qualifies listing = true ->
    exists st,
      package_body import_module module_dir listing g0 = Done st /\
      (forall n, In n ["_module_dir"; "_filename"; "_module_name"] ->
                 ns_lookup n (globals st) = None) /\
      (forall n m, ~ In n TEMPORARIES ->
         is_module_of listing n = true -> import_module n = Imported m ->
         ns_lookup n (globals st) = Some (VModule m)) /\
      (forall n, ~ In n TEMPORARIES ->
         (is_module_of listing n = false \/
          forall m, import_module n <> Imported m) ->
         ns_lookup n (globals st) = ns_lookup n g0).
Proof.
  intros module_dir listing g0 Hund Hvis Hsome.
  destruct (package_body_spec module_dir listing g0 Hund Hvis Hsome)
    as [st [Hbody [_ [Htemp Hlook]]]].
  exists st. split; [exact Hbody|]. split; [exact Htemp|]. split.
  - intros n m Hn Hmod Himp. rewrite (Hlook n Hn), Hmod, Himp. reflexivity.
  - intros n Hn [Hmod | Hfail]; rewrite (Hlook n Hn).
    + rewrite Hmod. reflexivity.
    + destruct (is_module_of listing n); [|reflexivity].
      destruct (import_module n) as [m| |]; [|reflexivity|reflexivity].
      exfalso. exact (Hfail m eq_refl).
Qed.

(** Under the same conditions a failed import never stops the loop:
    what the package body has written to [sys.stderr] at the end is one
    warning line for each listed module file whose import raised, in the
    order of the listing, and nothing else. *)
Theorem failed_imports_only_warn :
  forall (module_dir : string) (listing : list string)
         (g0 : namespace module),
    undisturbed import_module listing ->
    builtins_visible g0 ->
    existsb qualifies listing = true ->
    exists st,
      package_body import_module module_dir listing g0 = Done st /\
      stderr st = warnings import_module listing.
Proof.
  intros module_dir listing g0 Hund Hvis Hsome.
  destruct (package_body_spec module_dir listing g0 Hund Hvis Hsome)
    as [st [Hbody [Herr _]]].
  exists st. split; assumption.
Qed.
End PackageProperties.

Lemma package_without_modules_fails_witness :
  AdditionalModules.package_body
    (fun _ : string => AdditionalModules.Imported 7%nat)
    "/pkg/additional_modules" ["__init__.py"; "__pycache__"] [] =
    AdditionalModules.Raised "NameError" "name '_module_name' is not defined".
Proof.
  apply (package_without_modules_fails nat
           (fun _ : string => AdditionalModules.Imported 7%nat)
           "/pkg/additional_modules" ["__init__.py"; "__pycache__"] []);
    reflexivity.
Defined.

Lemma sample_listing_undisturbed :
  AdditionalModules.undisturbed
    (fun name : string =>
       if String.eqb name "bad"
       then AdditionalModules.ImportFailed "ModuleNotFoundError"
              "No module named 'bad'"
       else AdditionalModules.Imported 7%nat)
    ["__init__.py"; "csv.py"; "bad.py"; "_filename.py"].
Proof.
  intros f [<-|[<-|[<-|[<-|[]]]]] Hq; try discriminate Hq;
    (split; [simpl; intuition discriminate|intros t m; discriminate]).
Qed.

Lemma bundled_modules_are_bound_witness :
  exists st,
    AdditionalModules.package_body
      (fun name : string =>
         if String.eqb name "bad"
         then AdditionalModules.ImportFailed "ModuleNotFoundError"
                "No module named 'bad'"
         else AdditionalModules.Imported 7%nat)
      "/pkg/additional_modules"
      ["__init__.py"; "csv.py"; "bad.py"; "_filename.py"] [] =
      AdditionalModules.Done st /\
    AdditionalModules.ns_lookup "csv" (AdditionalModules.globals st) =
      Some (AdditionalModules.VModule 7%nat) /\
    AdditionalModules.ns_lookup "_filename" (AdditionalModules.globals st) =
      None.
Proof.
  destruct (bundled_modules_are_bound nat _ "/pkg/additional_modules"
              ["__init__.py"; "csv.py"; "bad.py"; "_filename.py"] []
              sample_listing_undisturbed
              (fun name _ => eq_refl) eq_refl)
    as [st [Hbody [Htemp [Hbound _]]]].
  exists st. split; [exact Hbody|]. split.
  - apply Hbound; [simpl; intuition discriminate|reflexivity|reflexivity].
  - apply Htemp. simpl. auto.
Defined.

Lemma failed_imports_only_warn_witness :
  exists st,
    AdditionalModules.package_body
      (fun name : string =>
         if String.eqb name "bad"
         then AdditionalModules.ImportFailed "ModuleNotFoundError"
                "No module named 'bad'"
         else AdditionalModules.Imported 7%nat)
      "/pkg/additional_modules"
      ["__init__.py"; "csv.py"; "bad.py"; "_filename.py"] [] =
      AdditionalModules.Done st /\
    AdditionalModules.stderr st =
      ["Warning: Failed to import bad: No module named 'bad'"
       ++ AdditionalModules.newline].
Proof.
  apply (failed_imports_only_warn nat _ "/pkg/additional_modules"
           ["__init__.py"; "csv.py"; "bad.py"; "_filename.py"] []
           sample_listing_undisturbed (fun name _ => eq_refl) eq_refl).
Defined.
